(** * Sirius Audio Lab: the pitch pipeline of [sirius_audio_lab.py]

    A shallow embedding of the analysis core of [SiriusAudioLab]
    ([analyze_frequency], [freq_to_note], [calculate_portal_strength], the
    portal label of [update_gui] and the state update of [audio_callback]),
    of the recorder ([toggle_recording], [save_recording]) and of
    [calculate_cube_color].

    Python's [float] is IEEE 754 binary64, and so is Rocq's primitive [float]:
    every arithmetic operation and comparison below is the one Python performs,
    bit for bit.  Python's [int] is [Z].  A block is a one-dimensional array
    of binary64 samples (a float32 sample, as the input stream delivers by
    default, is one of these values).  The functions of NumPy that have no
    counterpart among the primitive operations ([np.hanning], [np.fft.rfft],
    [np.abs] on complex numbers, [np.log2]) are an interface, [Np.api]; the
    theorems hold for every implementation of it that meets the shapes NumPy
    documents, and [NpRef.ref] is one executable implementation. *)

From Stdlib Require Import String Ascii ZArith QArith Qabs List Bool Floats Lia DecimalString.
From Stdlib Require DecimalZ DecimalPos HexadecimalString.
Import ListNotations.

Set Warnings "-inexact-float".

(* ================================================================== *)
(** * Python's built-in values and operations *)

Module Py.

(** The exceptions the modelled code can raise. *)
Inductive exn : Type :=
| ValueError
| IndexError
| OverflowError.

(** A computation either returns or raises. *)
Inductive result (A : Type) : Type :=
| Ok (a : A)
| Raise (e : exn).
Arguments Ok {A} a.
Arguments Raise {A} e.

Definition bind {A B : Type} (m : result A) (k : A -> result B) : result B :=
  match m with
  | Ok a => k a
  | Raise e => Raise e
  end.

(** [float(n)] for an [int] [n]: the nearest binary64 value.  From 0 up
    to [2^63 - 1] it is the primitive conversion of a machine integer, which
    computes the same value ([float_of_int_spec] below). *)
Definition float_of_int (n : Z) : float :=
  if ((0 <=? n) && (n <? 9223372036854775808))%Z then of_uint63 (Uint63.of_Z n)
  else SF2Prim (binary_normalize prec emax n 0 false).

(** The integer part of a positive binary64 value [m * 2^e], truncated. *)
Definition trunc_pos (m : positive) (e : Z) : Z :=
  if (0 <=? e)%Z then Z.pos m * 2 ^ e else Z.pos m / 2 ^ (- e).

(** [int(x)] for a [float] [x]: truncation towards zero; NaN raises
    [ValueError], an infinity raises [OverflowError]. *)
Definition int_of_float (x : float) : result Z :=
  match Prim2SF x with
  | S754_zero _ => Ok 0%Z
  | S754_finite s m e => Ok (cond_Zopp s (trunc_pos m e))
  | S754_infinity _ => Raise OverflowError
  | S754_nan => Raise ValueError
  end.

(** The integer nearest to the positive value [m * 2^e], a tie going to the
    even neighbour. *)
Definition round_pos (m : positive) (e : Z) : Z :=
  if (0 <=? e)%Z then Z.pos m * 2 ^ e
  else
    let d := (2 ^ (- e))%Z in
    let q := (Z.pos m / d)%Z in
    let r := (Z.pos m mod d)%Z in
    match (2 * r ?= d)%Z with
    | Lt => q
    | Gt => (q + 1)%Z
    | Eq => if Z.even q then q else (q + 1)%Z
    end.

(** [int(round(x))]: [round] without [ndigits] returns the nearest [int],
    ties to even; NaN raises [ValueError], an infinity [OverflowError]. *)
Definition round_int (x : float) : result Z :=
  match Prim2SF x with
  | S754_zero _ => Ok 0%Z
  | S754_finite s m e => Ok (cond_Zopp s (round_pos m e))
  | S754_infinity _ => Raise OverflowError
  | S754_nan => Raise ValueError
  end.

(** [str(n)], as an f-string formats an [int]. *)
Definition str_of_int (n : Z) : string := NilZero.string_of_int (Z.to_int n).

(** The loop of the built-in [min(iterable)]: a later item replaces the
    current one only when it is strictly smaller. *)
Fixpoint min_loop (cur : float) (l : list float) : float :=
  match l with
  | [] => cur
  | x :: l' => min_loop (if (x <? cur)%float then x else cur) l'
  end.

(** [min(iterable)]; an empty iterable raises [ValueError]. *)
Definition min (l : list float) : result float :=
  match l with
  | [] => Raise ValueError
  | x :: l' => Ok (min_loop x l')
  end.

(** [max(a, b)]: [b] replaces [a] only when it is strictly greater. *)
Definition max2 (a b : float) : float :=
  if (a <? b)%float then b else a.

(** [seq[i]] for a list and an [int]: a negative index counts from the
    end; out of range raises [IndexError]. *)
Definition index {A : Type} (l : list A) (i : Z) : result A :=
  let j := if (i <? 0)%Z then (i + Z.of_nat (length l))%Z else i in
  if (j <? 0)%Z then Raise IndexError
  else match nth_error l (Z.to_nat j) with
       | Some a => Ok a
       | None => Raise IndexError
       end.

(** [seq[i:]]: a negative start counts from the end and is clipped at 0; a
    start past the end gives the empty sequence. *)
Definition slice_from {A : Type} (l : list A) (i : Z) : list A :=
  let j := if (i <? 0)%Z then Z.max 0 (i + Z.of_nat (length l)) else i in
  skipn (Z.to_nat j) l.

(** [collections.deque(maxlen=...)]: [append] on a full deque first drops
    the item at the left end. *)
Definition deque_append {A : Type} (maxlen : nat) (d : list A) (x : A) : list A :=
  if (maxlen <=? length d)%nat then skipn (S (length d) - maxlen) (d ++ [x])
  else d ++ [x].

End Py.

Notation "x <- m ;; k" := (Py.bind m (fun x => k))
  (at level 61, m at next level, right associativity).

(* ================================================================== *)
(** * The NumPy operations the program calls *)

Module Np.

(** A [complex128] value: real and imaginary part. *)
Definition complex : Type := (float * float)%type.

(** The NumPy functions that are not expressed with primitive float
    operations; the program only composes them. *)
Record api : Type := {
  hanning : nat -> list float;            (* np.hanning(M) *)
  rfft : list float -> list complex;      (* np.fft.rfft(a) *)
  absolute : complex -> float;            (* np.abs on one complex value *)
  log2 : float -> float                   (* np.log2 *)
}.

(** The shapes NumPy documents: [np.hanning(M)] has [M] points, and
    [np.fft.rfft] of [n >= 1] real points has [n//2 + 1] bins. *)
Record shapes (np : api) : Prop := {
  hanning_length : forall M, length (hanning np M) = M;
  rfft_length : forall a, a <> [] -> length (rfft np a) = (length a / 2 + 1)%nat
}.

(** [np.abs] on a real array. *)
Definition abs (a : list float) : list float := map PrimFloat.abs a.

(** [np.maximum(a, b)]: the larger one, a NaN winning. *)
Definition maximum (a b : float) : float :=
  if (b <=? a)%float || is_nan a then a else b.

(** [np.max(a)]: [np.maximum] reduced from the left; an empty array raises
    [ValueError]. *)
Definition max (a : list float) : Py.result float :=
  match a with
  | [] => Py.Raise Py.ValueError
  | x :: a' => Py.Ok (fold_left maximum a' x)
  end.

(** [a * b] on one-dimensional arrays: element by element; an array of one
    element is broadcast; other shapes raise [ValueError]. *)
Definition multiply (a b : list float) : Py.result (list float) :=
  if (length a =? length b)%nat then
    Py.Ok (map (fun p => (fst p * snd p)%float) (combine a b))
  else match a, b with
       | [x], _ => Py.Ok (map (fun y => (x * y)%float) b)
       | _, [y] => Py.Ok (map (fun x => (x * y)%float) a)
       | _, _ => Py.Raise Py.ValueError
       end.

(** The scan of [np.argmax]: position [i] replaces the best one when its
    value is not [<=] the best value; a NaN ends the scan. *)
Fixpoint argmax_loop (best : float) (best_i i : nat) (l : list float) : nat :=
  match l with
  | [] => best_i
  | x :: l' =>
      if negb (x <=? best)%float then
        if is_nan x then i else argmax_loop x i (S i) l'
      else argmax_loop best best_i (S i) l'
  end.

(** [np.argmax(a)] on a non-empty array (0 on an empty one, which the
    program never passes). *)
Definition argmax (a : list float) : nat :=
  match a with
  | [] => 0%nat
  | x :: a' => if is_nan x then 0%nat else argmax_loop x 0 1 a'
  end.

(** The scan of [np.argmin], the mirror image of [argmax_loop]. *)
Fixpoint argmin_loop (best : float) (best_i i : nat) (l : list float) : nat :=
  match l with
  | [] => best_i
  | x :: l' =>
      if negb (best <=? x)%float then
        if is_nan x then i else argmin_loop x i (S i) l'
      else argmin_loop best best_i (S i) l'
  end.

Definition argmin (a : list float) : nat :=
  match a with
  | [] => 0%nat
  | x :: a' => if is_nan x then 0%nat else argmin_loop x 0 1 a'
  end.



(** [np.fft.rfftfreq(n, d)]: [val = 1.0/(n*d)], and bin [k] of the
    [n//2 + 1] bins is [k * val]. *)
Definition rfftfreq (n : nat) (d : float) : list float :=
  let val := (1 / (Py.float_of_int (Z.of_nat n) * d))%float in
  map (fun k => (Py.float_of_int (Z.of_nat k) * val)%float) (seq 0 (n / 2 + 1)).

End Np.

(* ================================================================== *)
(** * An executable implementation of the NumPy interface

    Cosine, sine and logarithm by their power series in binary64 arithmetic,
    and the discrete Fourier transform by its defining sum.  It agrees with
    NumPy up to rounding in the last digits, and serves to run the program on
    concrete blocks. *)

Module NpRef.

Definition pi : float := 3.141592653589793%float.

(** Alternating power series: from the term of degree [k], add the terms of
    degree [k+2], [k+4], ... *)
Fixpoint series (fuel : nat) (k term acc x2 : float) : float :=
  match fuel with
  | O => acc
  | S fuel' =>
      let term' := (- term * x2 / ((k + 1) * (k + 2)))%float in
      series fuel' (k + 2)%float term' (acc + term')%float x2
  end.

(** Cosine and sine on [[-pi, pi]]. *)
Definition cos_small (x : float) : float := series 24 0 1 1 (x * x)%float.
Definition sin_small (x : float) : float := series 24 1 x x (x * x)%float.

(** Cosine on [[0, 2 pi]]. *)
Definition cos (x : float) : float :=
  if (pi <? x)%float then cos_small (2 * pi - x)%float else cos_small x.

(** Sine on [[0, 2 pi]]. *)
Definition sin (x : float) : float :=
  if (pi <? x)%float then (- sin_small (2 * pi - x))%float else sin_small x.

(** [np.hanning(M)]: [0.5 - 0.5 cos(2 pi i / (M - 1))]; one point is 1. *)
Definition hanning (M : nat) : list float :=
  match M with
  | 0%nat => []
  | 1%nat => [1%float]
  | _ => map (fun i => (0.5 - 0.5 * cos (2 * pi * Py.float_of_int (Z.of_nat i)
                                         / Py.float_of_int (Z.of_nat (M - 1))))%float)
             (seq 0 M)
  end.

(** One bin of the transform: the sum of [a_i * exp(-j theta i)], the
    powers of [exp(-j theta)] obtained by repeated rotation. *)
Fixpoint dft_bin (c s ck sk re im : float) (a : list float) : Np.complex :=
  match a with
  | [] => (re, im)
  | x :: a' =>
      dft_bin (c * ck - s * sk)%float (s * ck + c * sk)%float ck sk
              (re + x * c)%float (im - x * s)%float a'
  end.

(** [np.fft.rfft(a)]: bins [0 .. n//2]. *)
Definition rfft (a : list float) : list Np.complex :=
  let n := Py.float_of_int (Z.of_nat (length a)) in
  map (fun k =>
         let theta := (2 * pi * Py.float_of_int (Z.of_nat k) / n)%float in
         dft_bin 1 0 (cos_small theta) (sin_small theta) 0 0 a)
      (seq 0 (length a / 2 + 1)).

(** The modulus of a complex number. *)
Definition absolute (z : Np.complex) : float :=
  sqrt (fst z * fst z + snd z * snd z)%float.

(** [2 * atanh z] by its series [2 (z + z^3/3 + z^5/5 + ...)]. *)
Fixpoint atanh2 (fuel : nat) (k pow acc z2 : float) : float :=
  match fuel with
  | O => (2 * acc)%float
  | S fuel' =>
      let pow' := (pow * z2)%float in
      atanh2 fuel' (k + 2)%float pow' (acc + pow' / (k + 2))%float z2
  end.

Definition ln2 : float := 0.6931471805599453%float.

(** [np.log2] on positive finite numbers: the binary exponent plus the
    logarithm of the mantissa, brought into [[0.75, 1.5)]. *)
Definition log2 (x : float) : float :=
  let '(m, e) := Z.frexp x in
  let '(m, e) := if (m <? 0.75)%float then ((2 * m)%float, (e - 1)%Z) else (m, e) in
  let z := ((m - 1) / (m + 1))%float in
  (Py.float_of_int e + atanh2 30 1 z z (z * z)%float / ln2)%float.

Definition ref : Np.api :=
  {| Np.hanning := hanning; Np.rfft := rfft;
     Np.absolute := absolute; Np.log2 := log2 |}.

End NpRef.

(* ================================================================== *)
(** * class SiriusAudioLab *)

Module SiriusAudioLab.

Open Scope float_scope.

(** ** The attributes set by [__init__] *)

Definition sample_rate : Z := 44100.
Definition blocksize : nat := 1024.
Definition maxlen : nat := 100.

Definition portal_freqs : list Z := [432; 528; 639; 741; 852]%Z.
Definition portal_names : list string :=
  ["Heart"; "DNA Repair"; "Connection"; "Awakening"; "Spiritual"]%string.

(** The attributes the audio callback writes.  [sample_rate], [blocksize]
    and the portal tables are never assigned again and stay constants. *)
Record state : Type := {
  current_freq : float;
  current_note : string;
  portal_strength : float;
  freq_history : list float;        (* deque(maxlen=100), oldest first *)
  recording : bool;
  audio_data : list float
}.

Definition init : state :=
  {| current_freq := 0; current_note := "Silence"; portal_strength := 0;
     freq_history := []; recording := false; audio_data := [] |}.

Definition note_names : list string :=
  ["C"; "C#"; "D"; "D#"; "E"; "F"; "F#"; "G"; "G#"; "A"; "A#"; "B"]%string.

(** [min_freq_idx = int(50 * len(freqs) / (self.sample_rate / 2))] *)
Definition min_freq_idx (freqs : list float) : Py.result Z :=
  Py.int_of_float (Py.float_of_int (50 * Z.of_nat (length freqs))
                   / (Py.float_of_int sample_rate / 2)).

(** The frequencies of the bins of a block of [n] samples:
    [np.fft.rfftfreq(n, 1 / self.sample_rate)]. *)
Definition bin_freqs (n : nat) : list float :=
  Np.rfftfreq n (1 / Py.float_of_int sample_rate).

(** [calculate_portal_strength] *)
Definition portal_diffs (freq : float) : list float :=
  map (fun pf => abs (freq - Py.float_of_int pf)) portal_freqs.

Definition calculate_portal_strength (freq : float) : Py.result float :=
  if freq =? 0 then Py.Ok 0
  else
    min_diff <- Py.min (portal_diffs freq) ;;
    Py.Ok (Py.max2 0 (1 - min_diff / 50)).

(** The portal shown by [update_gui]: the name at the first position of
    least distance when the current frequency is positive, and [None]
    otherwise.  (The label text adds the prefix [Portal: ] and, after a
    name, the strength with two decimals.) *)
Definition closest_portal (freq : float) : Py.result string :=
  if 0 <? freq then
    Py.index portal_names (Z.of_nat (Np.argmin (portal_diffs freq)))
  else Py.Ok "None"%string.

Section WithNumPy.

Variable np : Np.api.

(** The magnitude spectrum of a block: Hann window, [rfft], modulus. *)
Definition magnitudes (audio_chunk : list float) : Py.result (list float) :=
  let window := Np.hanning np (length audio_chunk) in
  windowed <- Np.multiply audio_chunk window ;;
  Py.Ok (map (Np.absolute np) (Np.rfft np windowed)).

(** [analyze_frequency] *)
Definition analyze_frequency (audio_chunk : list float) : Py.result float :=
  peak <- Np.max (Np.abs audio_chunk) ;;
  if peak <? 0.01 then Py.Ok 0
  else
    let window := Np.hanning np (length audio_chunk) in
    windowed <- Np.multiply audio_chunk window ;;
    let spectrum := Np.rfft np windowed in
    let freqs := bin_freqs (length windowed) in
    let magnitudes := map (Np.absolute np) spectrum in
    min_freq_idx <- min_freq_idx freqs ;;
    if (0 <? length (Py.slice_from magnitudes min_freq_idx))%nat then
      let dominant_idx :=
        (Z.of_nat (Np.argmax (Py.slice_from magnitudes min_freq_idx))
         + min_freq_idx)%Z in
      Py.index freqs dominant_idx
    else Py.Ok 0.

(** The MIDI number [n = 12 * np.log2(freq / A4) + 69]. *)
Definition midi_number (freq : float) : float :=
  12 * Np.log2 np (freq / 440) + 69.

(** [freq_to_note] *)
Definition freq_to_note (freq : float) : Py.result string :=
  if freq <? 50 then Py.Ok "Silence"%string
  else
    let n := midi_number freq in
    r <- Py.round_int n ;;
    let note_index := (r mod 12)%Z in
    r' <- Py.round_int n ;;
    let octave := (r' / 12 - 1)%Z in
    name <- Py.index note_names note_index ;;
    Py.Ok (name ++ Py.str_of_int octave)%string.

(** [audio_callback]: the state after the call, and the exception that
    ended it, if any.  Each assignment takes effect when it is reached,
    so an exception leaves the earlier assignments in place.  The block
    is column 0 of [indata] (one channel); scheduling [update_gui] does
    not change the state. *)
Definition audio_callback (self : state) (audio_chunk : list float)
  : state * option Py.exn :=
  match analyze_frequency audio_chunk with
  | Py.Raise e => (self, Some e)
  | Py.Ok freq =>
      let self1 :=
        {| current_freq := freq; current_note := current_note self;
           portal_strength := portal_strength self;
           freq_history := freq_history self;
           recording := recording self; audio_data := audio_data self |} in
      match freq_to_note freq with
      | Py.Raise e => (self1, Some e)
      | Py.Ok note =>
          let self2 :=
            {| current_freq := freq; current_note := note;
               portal_strength := portal_strength self;
               freq_history := freq_history self;
               recording := recording self; audio_data := audio_data self |} in
          match calculate_portal_strength freq with
          | Py.Raise e => (self2, Some e)
          | Py.Ok strength =>
              ({| current_freq := freq; current_note := note;
                  portal_strength := strength;
                  freq_history := Py.deque_append maxlen (freq_history self) freq;
                  recording := recording self;
                  audio_data := if recording self
                                then audio_data self ++ audio_chunk
                                else audio_data self |}, None)
          end
      end
  end.

(** The input stream: the callback runs once per delivered block, in
    order, until one call raises. *)
Fixpoint stream (self : state) (blocks : list (list float))
  : state * option Py.exn :=
  match blocks with
  | [] => (self, None)
  | b :: blocks' =>
      match audio_callback self b with
      | (self', None) => stream self' blocks'
      | (self', Some e) => (self', Some e)
      end
  end.

End WithNumPy.

(** ** Test blocks *)

(** [n] samples of [amplitude * sin(2 pi cycles i / n)]: a sine wave of
    frequency [cycles * sample_rate / n], a whole number of cycles in the
    block. *)
Definition sine_block (n cycles : nat) (amplitude : float) : list float :=
  map (fun i =>
         let j := ((cycles * i) mod n)%nat in
         amplitude * NpRef.sin (2 * NpRef.pi * Py.float_of_int (Z.of_nat j)
                                / Py.float_of_int (Z.of_nat n)))
      (seq 0 n).

(** [n] samples alternating between [1] and [-1]: the Nyquist frequency. *)
Definition alternating_block (n : nat) : list float :=
  map (fun i => if Nat.even i then 1 else -1) (seq 0 n).

End SiriusAudioLab.

(* ================================================================== *)
(** * Definitions used to state and prove the properties *)

Module FloatOrder.

(** A floating-point number that is not NaN. *)
Definition notnan (x : float) : Prop := is_nan x = false.

(** The place of a number on the number line, as a triple compared
    lexicographically: class and sign, then exponent, then mantissa. *)
Definition key (f : spec_float) : Z * Z * Z :=
  match f with
  | S754_zero _ => (0, 0, 0)%Z
  | S754_infinity s => (if s then (-2) else 2, 0, 0)%Z
  | S754_nan => (0, 0, 0)%Z
  | S754_finite s m e => if s then (-1, - e, Z.neg m)%Z else (1, e, Z.pos m)%Z
  end.

Definition fkey (x : float) : Z * Z * Z := key (Prim2SF x).

Definition lexcmp (a b : Z * Z * Z) : comparison :=
  let '(a1, a2, a3) := a in
  let '(b1, b2, b3) := b in
  match (a1 ?= b1)%Z with
  | Eq => match (a2 ?= b2)%Z with
          | Eq => (a3 ?= b3)%Z
          | c => c
          end
  | c => c
  end.



(** [m] is the greatest element of [l], and [i] is the first position that
    holds it. *)
Definition first_max (l : list float) (i : nat) (m : float) : Prop :=
  nth_error l i = Some m
  /\ (forall d, In d l -> (d <=? m)%float = true)
  /\ (forall j d, (j < i)%nat -> nth_error l j = Some d -> (d <? m)%float = true).

End FloatOrder.

Module Checks.

Import SiriusAudioLab.
Open Scope float_scope.

(** For a block of [n] samples: the index of the first bin kept is
    computed without error and is not negative, and every bin frequency is
    [0] or lies in [(0, 22050.000000000004]]. *)
Definition bins_ok (n : nat) : bool :=
  let freqs := bin_freqs n in
  match min_freq_idx freqs with
  | Py.Ok m =>
      (0 <=? m)%Z
      && forallb (fun f => Leibniz.eqb f 0
                           || ((0 <? f) && (f <=? 22050.000000000004))) freqs
  | Py.Raise _ => false
  end.

(** A block of the configured size: bin 0 is at 0 Hz, the first bin kept
    is bin 1, and the bins from 1 on lie in [[43.06640625, 22050]]. *)
Definition bins_1024_ok : bool :=
  let freqs := bin_freqs blocksize in
  match min_freq_idx freqs, freqs with
  | Py.Ok m, f0 :: rest =>
      (m =? 1)%Z && Leibniz.eqb f0 0
      && forallb (fun f => (43.06640625 <=? f) && (f <=? 22050)) rest
  | _, _ => false
  end.

(** The first element of [l] is not NaN and no later element exceeds it. *)
Definition peak_at_first (l : list float) : bool :=
  match l with
  | [] => false
  | m :: rest => negb (is_nan m) && forallb (fun x => x <=? m) rest
  end.

(** The block passes the amplitude gate, and its magnitudes from bin 1 on
    are greatest at bin 1. *)
Definition loud_peak_at_1 (np : Np.api) (chunk : list float) : bool :=
  match Np.max (Np.abs chunk), magnitudes np chunk with
  | Py.Ok peak, Py.Ok mags => negb (peak <? 0.01) && peak_at_first (skipn 1 mags)
  | _, _ => false
  end.

End Checks.

(* ================================================================== *)
(** * Recording to sound files

    [toggle_recording] and [save_recording].  The library call
    [sf.write] is kept as a log of its calls; whether a call returns or
    raises is not decided by the program, so it is an input. *)

Module Recorder.

Import SiriusAudioLab.
Open Scope float_scope.

(** [np.array(..., dtype=np.float32)] on one item: the nearest binary32
    number (ties to even, infinite beyond the binary32 range), held as the
    binary64 number of the same value. *)
Definition to_float32 (x : float) : float :=
  match Prim2SF x with
  | S754_finite s m e =>
      match binary_round 24 128 s m e with
      | S754_finite s' m' e' => SF2Prim (binary_round prec emax s' m' e')
      | r => SF2Prim r
      end
  | _ => x
  end.

(** One call [sf.write(filename, audio_array, self.sample_rate)]. *)
Record write_call := {
  filename : string;
  data : list float;
  samplerate : Z
}.

(** The exception of a call to [sf.write] that does not return. *)
Inductive io_exn := SoundFileError.

(** The application: the analysis state, [file_counter], and the calls
    made to [sf.write] so far, oldest first, each with whether it
    returned. *)
Record app := {
  lab : state;
  file_counter : Z;
  calls : list (write_call * bool)
}.

(** [__init__] *)
Definition initial : app :=
  {| lab := SiriusAudioLab.init; file_counter := 1; calls := [] |}.

(** [f"sirius_audio_{self.file_counter}.wav"] *)
Definition wav_name (counter : Z) : string :=
  ("sirius_audio_" ++ Py.str_of_int counter ++ ".wav")%string.

(** [save_recording]; [write_ok] tells whether [sf.write], if it is
    called, returns. *)
Definition save_recording (write_ok : bool) (self : app) : app * option io_exn :=
  match audio_data (lab self) with
  | [] => (self, None)
  | _ :: _ =>
      let call := {| filename := wav_name (file_counter self);
                     data := map to_float32 (audio_data (lab self));
                     samplerate := sample_rate |} in
      if write_ok then
        ({| lab := lab self; file_counter := file_counter self + 1;
            calls := calls self ++ [(call, true)] |}, None)
      else
        ({| lab := lab self; file_counter := file_counter self;
            calls := calls self ++ [(call, false)] |}, Some SoundFileError)
  end.

(** [toggle_recording] *)
Definition toggle_recording (write_ok : bool) (self : app) : app * option io_exn :=
  let l := lab self in
  let now := negb (recording l) in
  if now then
    ({| lab := {| current_freq := current_freq l; current_note := current_note l;
                  portal_strength := portal_strength l;
                  freq_history := freq_history l;
                  recording := now; audio_data := [] |};
        file_counter := file_counter self; calls := calls self |}, None)
  else
    save_recording write_ok
      {| lab := {| current_freq := current_freq l; current_note := current_note l;
                   portal_strength := portal_strength l;
                   freq_history := freq_history l;
                   recording := now; audio_data := audio_data l |};
         file_counter := file_counter self; calls := calls self |}.

(** What the application handles: a block from the audio stream, or a
    press of the record button. *)
Inductive event :=
| Block (indata : list float)
| Toggle (write_ok : bool).

Definition handle (np : Np.api) (self : app) (ev : event) : app :=
  match ev with
  | Block b =>
      {| lab := fst (audio_callback np (lab self) b);
         file_counter := file_counter self; calls := calls self |}
  | Toggle ok => fst (toggle_recording ok self)
  end.

(** The handlers run one at a time, in the order of the events; an
    exception ends the handler that raised it, not the application.
    (After the callback raises, the audio library delivers no further
    block: the runs of the application are among the event lists.) *)
Definition run (np : Np.api) (self : app) (events : list event) : app :=
  fold_left (handle np) events self.

End Recorder.

(* ================================================================== *)
(** * The colour of the cube *)

Module Cube.

Import SiriusAudioLab.
Open Scope float_scope.





End Cube.

(* ================================================================== *)
(** * Predicates used to state the properties of the whole application *)

Module Invariants.

Import SiriusAudioLab Recorder Cube.
Open Scope float_scope.

(** The value of a result, [d] for an exception. *)
Definition value_or {A : Type} (d : A) (r : Py.result A) : A :=
  match r with
  | Py.Ok v => v
  | Py.Raise _ => d
  end.

(** The first bin kept for a block of [n] samples is bin
    [(n // 2 + 1) // 441]. *)
Definition cutoff_ok (n : nat) : bool :=
  match min_freq_idx (repeat 0 (n / 2 + 1)) with
  | Py.Ok m => (m =? Z.of_nat (n / 2 + 1) / 441)%Z
  | Py.Raise _ => false
  end.

(** A frequency the analysis of a block of the configured size can return. *)
Definition in_range (f : float) : Prop :=
  f = 0 \/ ((43.06640625 <=? f) = true /\ (f <=? 22050) = true).

Definition unit_interval (s : float) : Prop :=
  (0 <=? s) = true /\ (s <=? 1) = true.

Definition good_state (st : state) : Prop :=
  in_range (current_freq st)
  /\ unit_interval (portal_strength st)
  /\ Forall in_range (freq_history st)
  /\ (length (freq_history st) <= maxlen)%nat.

(** The callback runs to its end on the block: no step of it raises. *)
Definition completes (np : Np.api) (chunk : list float) : bool :=
  match analyze_frequency np chunk with
  | Py.Ok f =>
      match freq_to_note np f, calculate_portal_strength f with
      | Py.Ok _, Py.Ok _ => true
      | _, _ => false
      end
  | Py.Raise _ => false
  end.

(** The calls to [sf.write] that returned. *)
Definition succeeded (calls : list (write_call * bool)) : list write_call :=
  map fst (filter snd calls).

(** The calls of a log name their files by a counter that starts at [c]
    and moves on after each call that returned. *)
Fixpoint numbered (c : Z) (calls : list (write_call * bool)) : Prop :=
  match calls with
  | [] => True
  | (w, ok) :: rest =>
      filename w = wav_name c /\ numbered (if ok then c + 1 else c)%Z rest
  end.

Definition log_ok (self : app) : Prop :=
  numbered 1 (calls self)
  /\ file_counter self = (1 + Z.of_nat (length (filter snd (calls self))))%Z.




End Invariants.

(* ================================================================== *)
(** * Bounds on rounded results

    Predicates on the decoded form of a binary64 number: its sign, and
    that it is at most 1. *)

Module Rounding.

Definition two53 : Z := 9007199254740992.

(** The number is at most 1 (and is not NaN). *)
Definition at_most_one (f : spec_float) : Prop :=
  match f with
  | S754_zero _ => True
  | S754_finite true _ _ => True
  | S754_finite false m e => (e < -52 \/ (e = -52 /\ Z.pos m <= 4503599627370496))%Z
  | S754_infinity s => s = true
  | S754_nan => False
  end.

(** The number has the sign [s] (and is not NaN). *)
Definition signed (s : bool) (f : spec_float) : Prop :=
  match f with
  | S754_zero s' | S754_infinity s' | S754_finite s' _ _ => s' = s
  | S754_nan => False
  end.

(** The number is a zero or is positive (and is not NaN). *)
Definition nonneg (f : spec_float) : Prop :=
  match f with
  | S754_zero _ => True
  | S754_infinity s | S754_finite s _ _ => s = false
  | S754_nan => False
  end.

End Rounding.

(* ================================================================== *)
(** * The order of binary64 numbers

    The comparisons of floats are the lexicographic order of [key] on every
    number that is not NaN; the usual laws of a total order follow. *)

Module FloatFacts.

Import FloatOrder.

(** [float_of_int] is the correctly rounded conversion on every integer. *)
Lemma float_of_int_spec n :
  Py.float_of_int n = SF2Prim (binary_normalize prec emax n 0 false).
Proof.
  unfold Py.float_of_int.
  destruct ((0 <=? n)%Z && (n <? 9223372036854775808)%Z) eqn:E; [|reflexivity].
  apply andb_true_iff in E. destruct E as [H0 H1].
  apply Z.leb_le in H0. apply Z.ltb_lt in H1.
  rewrite <- (SF2Prim_Prim2SF (of_uint63 (Uint63.of_Z n))).
  rewrite of_uint63_spec, Uint63.of_Z_spec.
  rewrite Z.mod_small; [reflexivity|].
  split; [assumption|]. exact H1.
Qed.

Lemma SFcompare_key f1 f2 :
  f1 <> S754_nan -> f2 <> S754_nan ->
  SFcompare f1 f2 = Some (lexcmp (key f1) (key f2)).
Proof.
  intros H1 H2.
  destruct f1 as [s1|s1| |s1 m1 e1]; try congruence;
  destruct f2 as [s2|s2| |s2 m2 e2]; try congruence;
  try (destruct s1); try (destruct s2); try reflexivity; simpl.
  - fold (Pos.compare m1 m2).
    destruct (Z.compare_spec e1 e2), (Z.compare_spec (- e1) (- e2)); try lia; reflexivity.
Qed.

Lemma is_nan_Prim2SF x : is_nan x = true <-> Prim2SF x = S754_nan.
Proof.
  unfold is_nan. rewrite eqb_spec. unfold SFeqb.
  destruct (Prim2SF x) as [s|s| |s m e] eqn:E.
  1,2,4: rewrite SFcompare_key by congruence.
  all: split; try congruence; try reflexivity.
  all: intros H; exfalso; revert H.
  all: destruct s; simpl; rewrite ?Z.compare_refl, ?Pos.compare_refl; simpl; try discriminate.
  all: rewrite ?Z.compare_refl, ?Pos.compare_refl; simpl; discriminate.
Qed.

Lemma notnan_Prim2SF x : notnan x <-> Prim2SF x <> S754_nan.
Proof.
  unfold notnan. rewrite <- is_nan_Prim2SF. destruct (is_nan x); split; congruence.
Qed.

Lemma ltb_key x y : notnan x -> notnan y ->
  (x <? y)%float = match lexcmp (fkey x) (fkey y) with Lt => true | _ => false end.
Proof.
  intros Hx Hy. rewrite ltb_spec. unfold SFltb.
  rewrite SFcompare_key by (apply notnan_Prim2SF; assumption). reflexivity.
Qed.

Lemma leb_key x y : notnan x -> notnan y ->
  (x <=? y)%float = match lexcmp (fkey x) (fkey y) with Gt => false | _ => true end.
Proof.
  intros Hx Hy. rewrite leb_spec. unfold SFleb.
  rewrite SFcompare_key by (apply notnan_Prim2SF; assumption).
  destruct (lexcmp _ _); reflexivity.
Qed.

Lemma eqb_key x y : notnan x -> notnan y ->
  (x =? y)%float = match lexcmp (fkey x) (fkey y) with Eq => true | _ => false end.
Proof.
  intros Hx Hy. rewrite eqb_spec. unfold SFeqb.
  rewrite SFcompare_key by (apply notnan_Prim2SF; assumption). reflexivity.
Qed.

Lemma ltb_notnan x y : (x <? y)%float = true -> notnan x /\ notnan y.
Proof.
  rewrite ltb_spec. unfold SFltb. intros H.
  split; apply notnan_Prim2SF; intros E; rewrite E in H;
    destruct (Prim2SF x), (Prim2SF y); discriminate.
Qed.

Lemma leb_notnan x y : (x <=? y)%float = true -> notnan x /\ notnan y.
Proof.
  rewrite leb_spec. unfold SFleb. intros H.
  split; apply notnan_Prim2SF; intros E; rewrite E in H;
    destruct (Prim2SF x), (Prim2SF y); discriminate.
Qed.

Ltac lex :=
  unfold lexcmp in *;
  repeat match goal with
  | k : (Z * Z * Z)%type |- _ => destruct k as [[? ?] ?]
  end;
  repeat match goal with
  | H : context [(?a ?= ?b)%Z] |- _ => destruct (Z.compare_spec a b); try discriminate
  | |- context [(?a ?= ?b)%Z] => destruct (Z.compare_spec a b)
  end; try reflexivity; try discriminate; try lia.

Lemma lexcmp_antisym a b : lexcmp b a = CompOpp (lexcmp a b).
Proof. lex. Qed.


Lemma lexcmp_le_lt_trans a b c : lexcmp a b <> Gt -> lexcmp b c = Lt -> lexcmp a c = Lt.
Proof. intros H1 H2. destruct (lexcmp a b) eqn:E; try congruence; clear H1; lex. Qed.


Lemma leb_refl x : notnan x -> (x <=? x)%float = true.
Proof.
  intros H. rewrite leb_key by assumption.
  replace (lexcmp (fkey x) (fkey x)) with Eq; [reflexivity|].
  generalize (fkey x); intros k; lex.
Qed.

Lemma ltb_false_leb x y :
  notnan x -> notnan y -> (x <? y)%float = false -> (y <=? x)%float = true.
Proof.
  intros Hx Hy. rewrite ltb_key, leb_key by assumption.
  rewrite (lexcmp_antisym (fkey x) (fkey y)).
  destruct (lexcmp (fkey x) (fkey y)); simpl; congruence.
Qed.


Lemma negb_leb x y : notnan x -> notnan y -> negb (x <=? y)%float = (y <? x)%float.
Proof.
  intros Hx Hy. rewrite ltb_key, leb_key by assumption.
  rewrite (lexcmp_antisym (fkey x) (fkey y)).
  destruct (lexcmp (fkey x) (fkey y)); reflexivity.
Qed.

Lemma ltb_leb x y : (x <? y)%float = true -> (x <=? y)%float = true.
Proof.
  intros H. destruct (ltb_notnan _ _ H) as [Hx Hy]. revert H.
  rewrite ltb_key, leb_key by assumption.
  destruct (lexcmp (fkey x) (fkey y)); congruence.
Qed.

Lemma ltb_eqb_false x y : (x <? y)%float = true -> (y =? x)%float = false.
Proof.
  intros H. destruct (ltb_notnan _ _ H) as [Hx Hy]. revert H.
  rewrite ltb_key, eqb_key by assumption.
  rewrite (lexcmp_antisym (fkey x) (fkey y)).
  destruct (lexcmp (fkey x) (fkey y)); simpl; congruence.
Qed.


Lemma leb_ltb_trans x y z :
  (x <=? y)%float = true -> (y <? z)%float = true -> (x <? z)%float = true.
Proof.
  intros H1 H2. destruct (leb_notnan _ _ H1) as [Hx Hy].
  destruct (ltb_notnan _ _ H2) as [_ Hz]. revert H1 H2.
  rewrite !ltb_key, leb_key by assumption. intros H1 H2.
  rewrite (lexcmp_le_lt_trans (fkey x) (fkey y) (fkey z)); [reflexivity| |].
  - destruct (lexcmp (fkey x) (fkey y)); congruence.
  - destruct (lexcmp (fkey y) (fkey z)); congruence.
Qed.


(** ** Rounding never produces NaN *)
Lemma shr_1_nonneg mrs : (0 <= shr_m mrs)%Z -> (0 <= shr_m (shr_1 mrs))%Z.
Proof.
  destruct mrs as [m r s]; simpl. destruct m as [|p|p]; [ | destruct p | ]; simpl; lia.
Qed.

Lemma iter_shr_1_nonneg p mrs :
  (0 <= shr_m mrs)%Z -> (0 <= shr_m (iter_pos shr_1 p mrs))%Z.
Proof.
  revert mrs. induction p as [p IH|p IH|]; intros mrs H; simpl.
  - apply IH, IH, shr_1_nonneg, H.
  - apply IH, IH, H.
  - apply shr_1_nonneg, H.
Qed.

Lemma shr_fexp_nonneg m e l :
  (0 <= m)%Z -> (0 <= shr_m (fst (shr_fexp prec emax m e l)))%Z.
Proof.
  intros H. unfold shr_fexp, shr.
  assert (0 <= shr_m (shr_record_of_loc m l))%Z
    by (destruct l as [|[]]; simpl; assumption).
  destruct (_ - e)%Z; simpl; try assumption.
  apply iter_shr_1_nonneg; assumption.
Qed.









End FloatFacts.

(* ================================================================== *)
(** * Properties of the pitch pipeline *)

Module Properties.

Import FloatOrder FloatFacts SiriusAudioLab.
Open Scope float_scope.

(** ** Indexing *)

(** An index that is not negative reads the list at that position. *)
Lemma index_nonneg {A : Type} (l : list A) (i : Z) :
  (0 <= i)%Z ->
  Py.index l i = match nth_error l (Z.to_nat i) with
                 | Some a => Py.Ok a
                 | None => Py.Raise Py.IndexError
                 end.
Proof.
  intros H. unfold Py.index.
  replace (i <? 0)%Z with false by (symmetry; apply Z.ltb_ge; lia).
  cbv beta iota zeta.
  replace (i <? 0)%Z with false by (symmetry; apply Z.ltb_ge; lia).
  reflexivity.
Qed.

(** ** The amplitude gate *)






(** ** The portal scorer *)






(** C6, as the program computes it: at 432.0 the strength is 1.0 and at
    457.0 it is 0.5, both with "Heart"; at 482.0 the nearest entry is 528
    ("DNA Repair"), 46 Hz away, and the strength is [1 - 46/50], which is
    0.07999999999999996 in binary64. *)
Theorem portal_examples :
  calculate_portal_strength 432 = Py.Ok 1
  /\ closest_portal 432 = Py.Ok "Heart"%string
  /\ calculate_portal_strength 457 = Py.Ok 0.5
  /\ closest_portal 457 = Py.Ok "Heart"%string
  /\ calculate_portal_strength 482 = Py.Ok 0.07999999999999996
  /\ closest_portal 482 = Py.Ok "DNA Repair"%string.
Proof. repeat split; vm_compute; reflexivity. Qed.

(** C6 as stated fails at 482.0: the strength there is not 0.0. *)
Lemma portal_482_not_zero :
  calculate_portal_strength 482 <> Py.Ok 0
  /\ exists s, calculate_portal_strength 482 = Py.Ok s /\ (0 <? s) = true.
Proof.
  split.
  - intros H.
    apply (f_equal (fun r => match r with
                             | Py.Ok x => Prim2SF x
                             | Py.Raise _ => S754_nan
                             end)) in H.
    vm_compute in H. discriminate.
  - exists 0.07999999999999996. split; vm_compute; reflexivity.
Qed.

(** ** The frequency history *)

Lemma deque_append_skipn {A : Type} (M : nat) (h : list A) (x : A) :
  Py.deque_append M h x = skipn (S (length h) - M) (h ++ [x]).
Proof.
  unfold Py.deque_append. destruct (Nat.leb_spec M (length h)); [reflexivity|].
  replace (S (length h) - M)%nat with 0%nat by lia. reflexivity.
Qed.

(** Appending to a deque that holds the last [M] items of [l] gives the last
    [M] items of the longer sequence. *)
Lemma deque_fold {A : Type} (M : nat) (fs : list A) :
  forall l,
    fold_left (Py.deque_append M) fs (skipn (length l - M) l)
    = skipn (length (l ++ fs) - M) (l ++ fs).
Proof.
  induction fs as [|x fs IH]; intros l; simpl.
  - rewrite app_nil_r. reflexivity.
  - rewrite deque_append_skipn, length_skipn.
    replace (l ++ x :: fs) with ((l ++ [x]) ++ fs)
      by (rewrite <- app_assoc; reflexivity).
    rewrite <- IH. f_equal.
    replace (skipn (length l - M) l ++ [x]) with (skipn (length l - M) (l ++ [x])).
    + rewrite skipn_skipn, length_app. f_equal. cbn [length]. lia.
    + rewrite skipn_app.
      replace (length l - M - length l)%nat with 0%nat by lia. reflexivity.
Qed.

Lemma audio_callback_history np self b self' e :
  audio_callback np self b = (self', e) ->
  match e with
  | None => exists f, analyze_frequency np b = Py.Ok f
                      /\ freq_history self' = Py.deque_append maxlen (freq_history self) f
  | Some _ => freq_history self' = freq_history self
  end.
Proof.
  unfold audio_callback.
  destruct (analyze_frequency np b) as [f|x].
  - destruct (freq_to_note np f) as [note|x].
    + destruct (calculate_portal_strength f) as [st|x];
        intros H; inversion H; subst; simpl; eauto.
    + intros H; inversion H; subst; reflexivity.
  - intros H; inversion H; subst; reflexivity.
Qed.

(** The blocks processed without an exception append their frequencies, in
    order of arrival. *)
Lemma stream_history np blocks :
  forall self self' e,
    stream np self blocks = (self', e) ->
    exists fs,
      Forall2 (fun b f => analyze_frequency np b = Py.Ok f)
              (firstn (length fs) blocks) fs
      /\ (e = None -> length fs = length blocks)
      /\ freq_history self' = fold_left (Py.deque_append maxlen) fs (freq_history self).
Proof.
  induction blocks as [|b blocks IH]; intros self self' e H; simpl in H.
  - inversion H; subst. exists []. repeat split; constructor.
  - destruct (audio_callback np self b) as [self1 [x|]] eqn:E.
    + inversion H; subst.
      apply audio_callback_history in E. exists []. repeat split.
      * constructor.
      * discriminate.
      * simpl. assumption.
    + apply audio_callback_history in E. destruct E as (f & Hf & Hh).
      destruct (IH _ _ _ H) as (fs & Hall & Hlen & Hhist).
      exists (f :: fs). repeat split.
      * simpl. constructor; assumption.
      * intros He. simpl. rewrite Hlen; auto.
      * simpl. rewrite <- Hh. assumption.
Qed.

(** C7: in every state the stream reaches from the initial one, the history
    holds at most 100 frequencies, and they are the last 100 (or all, if
    fewer) of the frequencies appended so far, in order of arrival: after
    [100 + k] updates the [k] oldest ones are gone. *)
Theorem history_holds_last_100 (np : Np.api) (blocks : list (list float))
    (self' : state) (e : option Py.exn) :
  stream np init blocks = (self', e) ->
  exists fs : list float,
    Forall2 (fun b f => analyze_frequency np b = Py.Ok f)
            (firstn (length fs) blocks) fs
    /\ (e = None -> length fs = length blocks)
    /\ freq_history self' = skipn (length fs - 100) fs
    /\ (length (freq_history self') <= 100)%nat
    /\ (forall k, length fs = (100 + k)%nat ->
                  freq_history self' = skipn k fs
                  /\ length (freq_history self') = 100%nat).
Proof.
  intros H. destruct (stream_history np blocks _ _ _ H) as (fs & Hall & Hlen & Hh).
  exists fs.
  assert (freq_history self' = skipn (length fs - 100) fs) as Hs.
  { rewrite Hh. apply (deque_fold maxlen fs []). }
  repeat split; try assumption.
  - rewrite Hs, length_skipn. lia.
  - rewrite Hs. f_equal. lia.
  - rewrite Hs, length_skipn. lia.
Qed.

Lemma history_holds_last_100_witness :
  let blocks := alternating_block 4 :: repeat [0; 0] 100 in
  stream NpRef.ref init blocks
  = ({| current_freq := 0; current_note := "Silence"; portal_strength := 0;
        freq_history := repeat 0 100; recording := false; audio_data := [] |}, None)
  /\ exists fs : list float,
       Forall2 (fun b f => analyze_frequency NpRef.ref b = Py.Ok f)
               (firstn (length fs) blocks) fs
       /\ (@None Py.exn = None -> length fs = length blocks)
       /\ repeat 0 100 = skipn (length fs - 100) fs
       /\ (length (repeat 0 100) <= 100)%nat
       /\ (forall k, length fs = (100 + k)%nat ->
                     repeat 0 100 = skipn k fs
                     /\ length (repeat 0 100) = 100%nat).
Proof.
  intros blocks.
  assert (stream NpRef.ref init blocks
          = ({| current_freq := 0; current_note := "Silence"; portal_strength := 0;
                freq_history := repeat 0 100; recording := false;
                audio_data := [] |}, None)) as H
    by (vm_compute; reflexivity).
  split; [exact H|].
  exact (history_holds_last_100 NpRef.ref blocks _ None H).
Defined.

(** ** The intake of blocks *)

Lemma calculate_portal_strength_ok freq :
  exists s, calculate_portal_strength freq = Py.Ok s.
Proof.
  unfold calculate_portal_strength. destruct (freq =? 0); [eauto|].
  unfold portal_diffs, portal_freqs. simpl. eauto.
Qed.

(** C8 as stated fails: a block of 64 samples (the configured size is
    1024) holding a 689.0625 Hz sine wave is analysed like any other; no
    exception ends the call, and the frequency, the note and the history are
    overwritten.  The same holds for a silent block of two samples. *)
Lemma wrong_length_block_is_processed :
  length (sine_block 64 1 0.5) <> blocksize
  /\ audio_callback NpRef.ref init (sine_block 64 1 0.5)
     = ({| current_freq := 689.0625; current_note := "F5"; portal_strength := 0;
           freq_history := [689.0625]; recording := false; audio_data := [] |}, None)
  /\ audio_callback NpRef.ref init [0; 0]
     = ({| current_freq := 0; current_note := "Silence"; portal_strength := 0;
           freq_history := [0]; recording := false; audio_data := [] |}, None)
  /\ fst (audio_callback NpRef.ref init (sine_block 64 1 0.5)) <> init
  /\ fst (audio_callback NpRef.ref init [0; 0]) <> init.
Proof.
  split; [vm_compute; discriminate|].
  split; [vm_compute; reflexivity|].
  split; [vm_compute; reflexivity|].
  split; intros H; apply (f_equal (fun st => length (freq_history st))) in H;
    vm_compute in H; discriminate.
Qed.

(** C8 as the program has it: the callback never looks at the length of the
    block.  Whatever the length, an exception raised by the analysis ends
    the call with the state untouched, and a frequency returned by it (with
    its note) is stored: frequency, note and strength are overwritten and the
    frequency is appended to the history. *)
Theorem audio_callback_any_length (np : Np.api) (self : state) (chunk : list float) :
  (forall e, analyze_frequency np chunk = Py.Raise e ->
             audio_callback np self chunk = (self, Some e))
  /\ (forall f note,
        analyze_frequency np chunk = Py.Ok f ->
        freq_to_note np f = Py.Ok note ->
        exists s,
          calculate_portal_strength f = Py.Ok s
          /\ audio_callback np self chunk =
             ({| current_freq := f; current_note := note; portal_strength := s;
                 freq_history := Py.deque_append maxlen (freq_history self) f;
                 recording := recording self;
                 audio_data := if recording self then audio_data self ++ chunk
                               else audio_data self |}, None)).
Proof.
  split.
  - intros e He. unfold audio_callback. rewrite He. reflexivity.
  - intros f note Hf Hn.
    destruct (calculate_portal_strength_ok f) as [s Hs].
    exists s. split; [assumption|].
    unfold audio_callback. rewrite Hf, Hn, Hs. reflexivity.
Qed.

Lemma audio_callback_any_length_witness :
  audio_callback NpRef.ref init [] = (init, Some Py.ValueError)
  /\ exists s,
       calculate_portal_strength 689.0625 = Py.Ok s
       /\ audio_callback NpRef.ref init (sine_block 64 1 0.5) =
          ({| current_freq := 689.0625; current_note := "F5";
              portal_strength := s;
              freq_history := Py.deque_append maxlen (freq_history init) 689.0625;
              recording := recording init;
              audio_data := if recording init
                            then audio_data init ++ sine_block 64 1 0.5
                            else audio_data init |}, None).
Proof.
  split.
  - apply (proj1 (audio_callback_any_length NpRef.ref init [])).
    vm_compute; reflexivity.
  - apply (proj2 (audio_callback_any_length NpRef.ref init (sine_block 64 1 0.5)));
      vm_compute; reflexivity.
Defined.

(** ** The note mapper *)






(** ** The dominant bin *)

Lemma argmax_loop_lt l :
  forall best bi i, (bi < i)%nat -> (Np.argmax_loop best bi i l < i + length l)%nat.
Proof.
  induction l as [|x l IH]; intros best bi i H; simpl; [lia|].
  destruct (negb (x <=? best)); [destruct (is_nan x)|].
  - lia.
  - specialize (IH x i (S i) ltac:(lia)). lia.
  - specialize (IH best bi (S i) ltac:(lia)). lia.
Qed.

(** [np.argmax] of a non-empty array is a position of the array. *)
Lemma argmax_lt l : l <> [] -> (Np.argmax l < length l)%nat.
Proof.
  destruct l as [|x l]; [congruence|]. intros _. simpl.
  destruct (is_nan x); [lia|].
  pose proof (argmax_loop_lt l x 0%nat 1%nat ltac:(lia)). lia.
Qed.

(** The first element stays the maximum when no later one exceeds it. *)
Lemma argmax_loop_stays l :
  forall best bi i,
    forallb (fun x => x <=? best) l = true -> Np.argmax_loop best bi i l = bi.
Proof.
  induction l as [|x l IH]; intros best bi i H; simpl in *; [reflexivity|].
  apply andb_true_iff in H. destruct H as [Hx Hl].
  rewrite Hx. simpl. apply IH. assumption.
Qed.

(** [np.argmax] and the first greatest element of an array without NaN:
    the scan stops at the first position that holds the maximum. *)
Lemma argmax_loop_first l :
  forall pre best bi,
    Forall notnan (pre ++ l) ->
    nth_error pre bi = Some best ->
    (forall d, In d pre -> (d <=? best) = true) ->
    (forall j d, (j < bi)%nat -> nth_error pre j = Some d -> (d <? best) = true) ->
    exists m, first_max (pre ++ l) (Np.argmax_loop best bi (length pre) l) m.
Proof.
  induction l as [|x l IH]; intros pre best bi Hnn Hbest Hle Hlt; simpl.
  - rewrite app_nil_r. exists best. repeat split; assumption.
  - assert (notnan best) as Hb.
    { rewrite Forall_forall in Hnn. apply Hnn, in_or_app. left.
      eapply nth_error_In; eassumption. }
    assert (notnan x) as Hx.
    { rewrite Forall_forall in Hnn. apply Hnn, in_or_app. right. left. reflexivity. }
    assert (bi < length pre)%nat as Hbi by (apply nth_error_Some; congruence).
    rewrite (negb_leb x best Hx Hb).
    replace (pre ++ x :: l) with ((pre ++ [x]) ++ l) in *
      by (rewrite <- app_assoc; reflexivity).
    assert (S (length pre) = length (pre ++ [x])) as Hlen
      by (rewrite length_app; simpl; lia).
    destruct (best <? x) eqn:E.
    + rewrite Hx, Hlen.
      apply (IH (pre ++ [x]) x (length pre)); try assumption.
      * rewrite nth_error_app2 by lia. rewrite Nat.sub_diag. reflexivity.
      * intros d Hd. apply in_app_or in Hd. destruct Hd as [Hd|[<-|[]]].
        -- apply ltb_leb, (leb_ltb_trans d best x); auto.
        -- apply leb_refl; assumption.
      * intros j d Hj Hd. rewrite nth_error_app1 in Hd by assumption.
        apply (leb_ltb_trans d best x); [|assumption].
        apply Hle. eapply nth_error_In; eassumption.
    + rewrite Hlen. apply (IH (pre ++ [x]) best bi); try assumption.
      * rewrite nth_error_app1 by assumption. assumption.
      * intros d Hd. apply in_app_or in Hd. destruct Hd as [Hd|[<-|[]]].
        -- apply Hle; assumption.
        -- apply ltb_false_leb; assumption.
      * intros j d Hj Hd. rewrite nth_error_app1 in Hd by lia.
        eapply Hlt; eassumption.
Qed.

(** The tie-break of the dominant bin: among magnitudes without NaN,
    [np.argmax] is the first position of the greatest one. *)
Lemma argmax_first_max l :
  l <> [] -> Forall notnan l -> exists m, first_max l (Np.argmax l) m.
Proof.
  destruct l as [|x l]; [congruence|]. intros _ H. unfold Np.argmax.
  assert (notnan x) as Hx by (inversion H; assumption).
  rewrite Hx. apply (argmax_loop_first l [x] x 0%nat); try assumption.
  - reflexivity.
  - intros d [<-|[]]. apply leb_refl; assumption.
  - intros j d Hj. lia.
Qed.

Lemma bin_freqs_length n : length (bin_freqs n) = (n / 2 + 1)%nat.
Proof. unfold bin_freqs, Np.rfftfreq. rewrite length_map, length_seq. reflexivity. Qed.

Lemma np_max_nonempty a : a <> [] -> exists peak, Np.max (Np.abs a) = Py.Ok peak.
Proof. destruct a; [congruence|]. intros _. simpl. eauto. Qed.

(** A block that passes the amplitude gate: the window and the transform have the
    shapes of the block, and the result is read off the magnitudes. *)
Lemma analyze_frequency_loud np (Hs : Np.shapes np) chunk peak :
  chunk <> [] ->
  Np.max (Np.abs chunk) = Py.Ok peak ->
  (peak <? 0.01) = false ->
  exists mags,
    magnitudes np chunk = Py.Ok mags
    /\ length mags = length (bin_freqs (length chunk))
    /\ analyze_frequency np chunk =
       (m <- min_freq_idx (bin_freqs (length chunk)) ;;
        if (0 <? length (Py.slice_from mags m))%nat
        then Py.index (bin_freqs (length chunk))
                      (Z.of_nat (Np.argmax (Py.slice_from mags m)) + m)
        else Py.Ok 0).
Proof.
  intros Hne Hpeak Hgate.
  unfold analyze_frequency, magnitudes. rewrite Hpeak. simpl. rewrite Hgate.
  unfold Np.multiply. rewrite (Np.hanning_length np Hs), Nat.eqb_refl. simpl.
  set (windowed := map _ (combine chunk _)).
  assert (length windowed = length chunk) as Hw.
  { unfold windowed. rewrite length_map, length_combine, (Np.hanning_length np Hs).
    apply Nat.min_id. }
  assert (windowed <> []) as Hwne.
  { intros E. rewrite E in Hw. destruct chunk; [congruence|discriminate]. }
  eexists. split; [reflexivity|]. rewrite Hw. split; [|reflexivity].
  rewrite length_map, (Np.rfft_length np Hs) by assumption.
  rewrite Hw, bin_freqs_length. reflexivity.
Qed.

(** With a first kept bin [m >= 0], a block that passes the amplitude gate yields 0.0
    or the frequency of a bin at position [m] or later. *)
Lemma analyze_frequency_bin np (Hs : Np.shapes np) chunk peak m :
  chunk <> [] ->
  Np.max (Np.abs chunk) = Py.Ok peak ->
  (peak <? 0.01) = false ->
  min_freq_idx (bin_freqs (length chunk)) = Py.Ok m ->
  (0 <= m)%Z ->
  exists f,
    analyze_frequency np chunk = Py.Ok f
    /\ (f = 0 \/ exists k, (Z.to_nat m <= k)%nat
                          /\ nth_error (bin_freqs (length chunk)) k = Some f).
Proof.
  intros Hne Hpeak Hgate Hm Hm0.
  destruct (analyze_frequency_loud np Hs chunk peak Hne Hpeak Hgate)
    as (mags & _ & Hlen & ->).
  rewrite Hm. simpl.
  unfold Py.slice_from.
  replace (m <? 0)%Z with false by (symmetry; apply Z.ltb_ge; lia).
  destruct (Nat.ltb_spec 0 (length (skipn (Z.to_nat m) mags))) as [Hpos|_];
    [|eexists; split; [reflexivity|left; reflexivity]].
  assert (skipn (Z.to_nat m) mags <> []) as Hsk
    by (intros E; rewrite E in Hpos; simpl in Hpos; lia).
  pose proof (argmax_lt _ Hsk) as Ha. rewrite length_skipn in Ha.
  set (a := Np.argmax (skipn (Z.to_nat m) mags)) in *.
  rewrite index_nonneg by lia.
  replace (Z.to_nat (Z.of_nat a + m)) with (a + Z.to_nat m)%nat by lia.
  destruct (nth_error (bin_freqs (length chunk)) (a + Z.to_nat m)) as [f|] eqn:E.
  - exists f. split; [reflexivity|]. right. exists (a + Z.to_nat m)%nat.
    split; [lia|assumption].
  - apply nth_error_None in E. lia.
Qed.

Lemma min_freq_idx_1024 : min_freq_idx (bin_freqs 1024) = Py.Ok 1%Z.
Proof. vm_compute. reflexivity. Qed.

(** A block of the configured size that passes the amplitude gate and whose
    magnitudes, from bin 1 on, are greatest at bin 1 is analysed as
    43.06640625 Hz, the frequency of bin 1. *)
Lemma analyze_peak_at_bin_1 np (Hs : Np.shapes np) chunk :
  length chunk = blocksize ->
  Checks.loud_peak_at_1 np chunk = true ->
  analyze_frequency np chunk = Py.Ok 43.06640625.
Proof.
  intros Hlen Hloud.
  assert (chunk <> []) as Hne by (intros E; rewrite E in Hlen; discriminate).
  unfold Checks.loud_peak_at_1 in Hloud.
  destruct (Np.max (Np.abs chunk)) as [peak|] eqn:Hpeak; [|discriminate].
  destruct (magnitudes np chunk) as [mags|] eqn:Hmags; [|discriminate].
  apply andb_true_iff in Hloud. destruct Hloud as [Hgate Hmax].
  apply negb_true_iff in Hgate.
  destruct (analyze_frequency_loud np Hs chunk peak Hne Hpeak Hgate)
    as (mags' & Hmags' & Hl & Ha).
  assert (mags' = mags) as -> by congruence.
  rewrite Hlen in *. unfold blocksize in *.
  rewrite Ha, min_freq_idx_1024. simpl Py.bind.
  destruct mags as [|m0 [|m1 rest]]; try discriminate Hmax.
  change (Py.slice_from (m0 :: m1 :: rest) 1) with (m1 :: rest).
  simpl in Hmax. apply andb_true_iff in Hmax. destruct Hmax as [Hnan Hmax].
  apply negb_true_iff in Hnan.
  replace (Np.argmax (m1 :: rest)) with 0%nat.
  - vm_compute. reflexivity.
  - unfold Np.argmax. rewrite Hnan. symmetry. apply argmax_loop_stays. assumption.
Qed.

Lemma ref_shapes : Np.shapes NpRef.ref.
Proof.
  split.
  - intros [|[|M]]; try reflexivity.
    unfold Np.hanning, NpRef.ref, NpRef.hanning. rewrite length_map, length_seq.
    reflexivity.
  - intros a _. unfold Np.rfft, NpRef.ref, NpRef.rfft.
    rewrite length_map, length_seq. reflexivity.
Qed.

(** One cycle of a sine wave in 1024 samples (43.06640625 Hz): the block
    passes the amplitude gate and its spectrum is greatest at bin 1. *)
Lemma sine_1024_length : length (sine_block 1024 1 0.5) = blocksize.
Proof. vm_compute. reflexivity. Qed.

Lemma sine_1024_peak : Checks.loud_peak_at_1 NpRef.ref (sine_block 1024 1 0.5) = true.
Proof. vm_compute. reflexivity. Qed.

(** C3 at a block the claim excludes: a block of the configured size that
    passes the amplitude gate and whose magnitudes, from bin 1 on, are greatest at
    bin 1 is analysed as 43.06640625 Hz.  The first bin kept is
    [int(50 * 513 / 22050.0) = 1], and bin 1 lies below 50 Hz: it is not
    excluded, and the frequency returned maps to "Silence". *)
Theorem bin_below_cutoff_is_selected (np : Np.api) (Hs : Np.shapes np)
    (chunk : list float) :
  length chunk = blocksize ->
  Checks.loud_peak_at_1 np chunk = true ->
  min_freq_idx (bin_freqs (length chunk)) = Py.Ok 1%Z
  /\ analyze_frequency np chunk = Py.Ok 43.06640625
  /\ (43.06640625 <? 50) = true
  /\ freq_to_note np 43.06640625 = Py.Ok "Silence"%string.
Proof.
  intros Hlen Hloud.
  split; [rewrite Hlen; exact min_freq_idx_1024|].
  split; [apply analyze_peak_at_bin_1; assumption|].
  split; reflexivity.
Qed.

Lemma bin_below_cutoff_is_selected_witness :
  min_freq_idx (bin_freqs (length (sine_block 1024 1 0.5))) = Py.Ok 1%Z
  /\ analyze_frequency NpRef.ref (sine_block 1024 1 0.5) = Py.Ok 43.06640625
  /\ (43.06640625 <? 50) = true
  /\ freq_to_note NpRef.ref 43.06640625 = Py.Ok "Silence"%string.
Proof.
  apply (bin_below_cutoff_is_selected NpRef.ref ref_shapes (sine_block 1024 1 0.5)).
  - exact sine_1024_length.
  - exact sine_1024_peak.
Defined.

(** ** Totality and range of the analysis *)

(** Checked by evaluation for every block length from 1 to 1024. *)
Lemma bins_ok_upto_1024 : forallb Checks.bins_ok (seq 1 1024) = true.
Proof. vm_compute. reflexivity. Qed.

Lemma bins_1024_ok_true : Checks.bins_1024_ok = true.
Proof. vm_compute. reflexivity. Qed.

Lemma bins_ok_spec n :
  (1 <= n <= 1024)%nat ->
  exists m, min_freq_idx (bin_freqs n) = Py.Ok m
            /\ (0 <= m)%Z
            /\ forall f, In f (bin_freqs n) ->
                         f = 0 \/ ((0 <? f) = true /\ (f <=? 22050.000000000004) = true).
Proof.
  intros Hn. pose proof bins_ok_upto_1024 as H.
  rewrite forallb_forall in H. specialize (H n ltac:(apply in_seq; lia)).
  unfold Checks.bins_ok in H.
  destruct (min_freq_idx (bin_freqs n)) as [m|]; [|discriminate].
  apply andb_true_iff in H. destruct H as [Hm Hall].
  exists m. split; [reflexivity|]. split; [apply Z.leb_le; assumption|].
  intros f Hf. rewrite forallb_forall in Hall. specialize (Hall f Hf).
  apply orb_true_iff in Hall. destruct Hall as [H0|Hr].
  - left. apply Leibniz.eqb_spec. assumption.
  - right. apply andb_true_iff in Hr. assumption.
Qed.

Lemma bins_1024_spec :
  forall k f, (1 <= k)%nat -> nth_error (bin_freqs 1024) k = Some f ->
              (43.06640625 <=? f) = true /\ (f <=? 22050) = true.
Proof.
  intros k f Hk Hf. pose proof bins_1024_ok_true as H.
  unfold Checks.bins_1024_ok, blocksize in H.
  destruct (min_freq_idx (bin_freqs 1024)) as [m|]; [|discriminate].
  destruct (bin_freqs 1024) as [|f0 rest]; [discriminate|].
  apply andb_true_iff in H. destruct H as [_ Hall].
  destruct k as [|k]; [lia|]. simpl in Hf. apply nth_error_In in Hf.
  rewrite forallb_forall in Hall. specialize (Hall f Hf).
  apply andb_true_iff in Hall. assumption.
Qed.

(** C10 as stated fails at a block of 54 samples alternating between 1 and
    -1: the dominant bin is the last one, and its frequency
    [27 * (1.0 / (54 * (1 / 44100)))] is 22050.000000000004 in binary64,
    above the Nyquist frequency 22050. *)
Lemma nyquist_exceeded_at_54 :
  alternating_block 54 <> []
  /\ analyze_frequency NpRef.ref (alternating_block 54) = Py.Ok 22050.000000000004
  /\ nth_error (bin_freqs 54) 27 = Some 22050.000000000004
  /\ (22050.000000000004 <=? Py.float_of_int sample_rate / 2) = false
  /\ (Py.float_of_int sample_rate / 2 <? 22050.000000000004) = true.
Proof.
  split; [vm_compute; discriminate|].
  repeat split; vm_compute; reflexivity.
Qed.

(** Any length: once the first kept bin [m >= 0] is computed, a non-empty
    block is analysed without error as 0.0 or as the frequency of a bin at a
    position inside the frequency array. *)
Lemma analyze_frequency_cases np (Hs : Np.shapes np) chunk m :
  chunk <> [] ->
  min_freq_idx (bin_freqs (length chunk)) = Py.Ok m ->
  (0 <= m)%Z ->
  exists f,
    analyze_frequency np chunk = Py.Ok f
    /\ (f = 0 \/ exists k, (Z.to_nat m <= k < length (bin_freqs (length chunk)))%nat
                          /\ nth_error (bin_freqs (length chunk)) k = Some f).
Proof.
  intros Hne Hm Hm0.
  destruct (np_max_nonempty chunk Hne) as [peak Hpeak].
  destruct (peak <? 0.01) eqn:Hgate.
  - exists 0. unfold analyze_frequency. rewrite Hpeak. simpl. rewrite Hgate. auto.
  - destruct (analyze_frequency_bin np Hs chunk peak m Hne Hpeak Hgate Hm Hm0)
      as (f & Hf & Hcases).
    exists f. split; [assumption|].
    destruct Hcases as [H0|(k & Hk & Hnth)]; [left; assumption|].
    right. exists k. split; [|assumption].
    split; [assumption|]. apply nth_error_Some. congruence.
Qed.

(** C10 as the program has it.  For a non-empty block of any length, once
    the index of the first kept bin is computed, the analysis raises no
    error and returns 0.0 or the frequency of a bin whose index is inside
    the frequency array.  For every non-empty block of at most 1024 samples
    that index is always computed, and the frequency returned is 0.0 or
    strictly positive and at most 22050.000000000004, one unit in the last
    place above the Nyquist frequency; at the configured size 1024 a result
    other than 0.0 lies between 43.06640625 and 22050.  The lower end is
    reached: a 1024-sample sine wave of one cycle is analysed as
    43.06640625 Hz, below the 50 Hz threshold of the note mapper. *)
Theorem analyze_frequency_total :
  (forall (np : Np.api) (chunk : list float) (m : Z),
      Np.shapes np ->
      chunk <> [] ->
      min_freq_idx (bin_freqs (length chunk)) = Py.Ok m ->
      (0 <= m)%Z ->
      exists f,
        analyze_frequency np chunk = Py.Ok f
        /\ (f = 0 \/ exists k, (Z.to_nat m <= k < length (bin_freqs (length chunk)))%nat
                              /\ nth_error (bin_freqs (length chunk)) k = Some f))
  /\ (forall (np : Np.api) (chunk : list float),
      Np.shapes np ->
      chunk <> [] ->
      (length chunk <= 1024)%nat ->
      exists f,
        analyze_frequency np chunk = Py.Ok f
        /\ (f = 0
            \/ ((exists k, (k < length (bin_freqs (length chunk)))%nat
                           /\ nth_error (bin_freqs (length chunk)) k = Some f)
                /\ (0 <? f) = true
                /\ (f <=? 22050.000000000004) = true))
        /\ (length chunk = blocksize ->
            f = 0 \/ ((43.06640625 <=? f) = true /\ (f <=? 22050) = true)))
  /\ (length (sine_block 1024 1 0.5) = blocksize
      /\ analyze_frequency NpRef.ref (sine_block 1024 1 0.5) = Py.Ok 43.06640625
      /\ (0 <? 43.06640625) = true
      /\ (43.06640625 <? 50) = true).
Proof.
  split; [|split].
  - intros np chunk m Hs Hne Hm Hm0. apply analyze_frequency_cases; assumption.
  - intros np chunk Hs Hne Hlen.
    assert (1 <= length chunk <= 1024)%nat as Hn
      by (destruct chunk; [congruence|simpl in *; lia]).
    destruct (bins_ok_spec _ Hn) as (m & Hm & Hm0 & Hbins).
    destruct (analyze_frequency_cases np Hs chunk m Hne Hm Hm0)
      as (f & Hf & Hcases).
    exists f. split; [assumption|].
    destruct Hcases as [->|(k & Hk & Hnth)]; [split; auto|].
    split.
    + destruct (Hbins f (nth_error_In _ _ Hnth)) as [->|[Hp Hu]]; [left; reflexivity|].
      right. split; [|split; assumption].
      exists k. split; [lia|assumption].
    + intros H1024. rewrite H1024 in *. unfold blocksize in *.
      rewrite min_freq_idx_1024 in Hm. assert (m = 1%Z) as -> by congruence.
      right. apply (bins_1024_spec k f); [lia|assumption].
  - split; [exact sine_1024_length|].
    split; [|split; reflexivity].
    apply (analyze_peak_at_bin_1 NpRef.ref ref_shapes);
      [exact sine_1024_length|exact sine_1024_peak].
Qed.

Lemma analyze_frequency_total_witness :
  (exists f,
      analyze_frequency NpRef.ref (alternating_block 54) = Py.Ok f
      /\ (f = 0 \/ exists k,
             (Z.to_nat 0 <= k < length (bin_freqs (length (alternating_block 54))))%nat
             /\ nth_error (bin_freqs (length (alternating_block 54))) k = Some f))
  /\ (exists f,
      analyze_frequency NpRef.ref (sine_block 64 1 0.5) = Py.Ok f
      /\ (f = 0
          \/ ((exists k, (k < length (bin_freqs (length (sine_block 64 1 0.5))))%nat
                         /\ nth_error (bin_freqs (length (sine_block 64 1 0.5))) k = Some f)
              /\ (0 <? f) = true
              /\ (f <=? 22050.000000000004) = true))
      /\ (length (sine_block 64 1 0.5) = blocksize ->
          f = 0 \/ ((43.06640625 <=? f) = true /\ (f <=? 22050) = true))).
Proof.
  destruct analyze_frequency_total as (HA & HB & _).
  split.
  - apply (HA NpRef.ref (alternating_block 54) 0%Z ref_shapes).
    + vm_compute. discriminate.
    + vm_compute. reflexivity.
    + lia.
  - apply (HB NpRef.ref (sine_block 64 1 0.5) ref_shapes).
    + vm_compute. discriminate.
    + vm_compute. repeat constructor.
Defined.

End Properties.

(* ================================================================== *)
(** * Rounding: results that are at most 1, and their signs *)

Module RoundingFacts.

Import FloatOrder FloatFacts Rounding.

(** ** The number of binary digits and the shifts of the rounding *)

Lemma digits2_pos_bounds m :
  (2 ^ (Z.pos (digits2_pos m) - 1) <= Z.pos m < 2 ^ Z.pos (digits2_pos m))%Z.
Proof.
  induction m as [m IH|m IH|]; simpl digits2_pos.
  - rewrite Pos2Z.inj_succ.
    replace (Z.succ (Z.pos (digits2_pos m)) - 1)%Z with (Z.succ (Z.pos (digits2_pos m) - 1))%Z by lia.
    rewrite !Z.pow_succ_r by lia. lia.
  - rewrite Pos2Z.inj_succ.
    replace (Z.succ (Z.pos (digits2_pos m)) - 1)%Z with (Z.succ (Z.pos (digits2_pos m) - 1))%Z by lia.
    rewrite !Z.pow_succ_r by lia. lia.
  - simpl. lia.
Qed.

Lemma digits2_pos_le m j : (0 <= j)%Z -> (Z.pos m < 2 ^ j)%Z -> (Z.pos (digits2_pos m) <= j)%Z.
Proof.
  intros Hj H. destruct (Z.le_gt_cases (Z.pos (digits2_pos m)) j) as [|Hgt]; [assumption|].
  exfalso. pose proof (digits2_pos_bounds m) as [Hlo _].
  assert (2 ^ j <= 2 ^ (Z.pos (digits2_pos m) - 1))%Z by (apply Z.pow_le_mono_r; lia).
  lia.
Qed.

Lemma shr_1_m mrs : (0 <= shr_m mrs)%Z -> shr_m (shr_1 mrs) = (shr_m mrs / 2)%Z.
Proof.
  destruct mrs as [m r s]. simpl. intros H.
  destruct m as [|[p|p|]|p]; simpl; try reflexivity; try lia.
  - rewrite Pos2Z.inj_xI. apply Z.div_unique with (r := 1%Z); lia.
  - rewrite Pos2Z.inj_xO. apply Z.div_unique with (r := 0%Z); lia.
Qed.

Lemma iter_shr_1_m p : forall mrs,
  (0 <= shr_m mrs)%Z -> shr_m (iter_pos shr_1 p mrs) = (shr_m mrs / 2 ^ Z.pos p)%Z.
Proof.
  induction p as [p IH|p IH|]; intros mrs H; simpl iter_pos.
  - rewrite IH by (apply iter_shr_1_nonneg, shr_1_nonneg, H).
    rewrite IH by (apply shr_1_nonneg, H).
    rewrite shr_1_m by assumption.
    rewrite !Z.div_div by lia. f_equal.
    rewrite Pos2Z.inj_xI, <- !Z.pow_add_r by lia. change 2%Z with (2 ^ 1)%Z at 1.
    rewrite <- Z.pow_add_r by lia. f_equal. lia.
  - rewrite IH by (apply iter_shr_1_nonneg, H).
    rewrite IH by assumption.
    rewrite Z.div_div by lia. f_equal.
    rewrite Pos2Z.inj_xO, <- Z.pow_add_r by lia. f_equal. lia.
  - rewrite shr_1_m by assumption. reflexivity.
Qed.


Lemma at_most_one_leb x : at_most_one (Prim2SF x) -> (x <=? 1)%float = true.
Proof.
  intros H.
  assert (notnan x) as Hx
    by (apply notnan_Prim2SF; intros E; rewrite E in H; exact H).
  rewrite leb_key by (assumption || reflexivity).
  unfold fkey. change (Prim2SF 1) with (S754_finite false 4503599627370496 (-52)).
  destruct (Prim2SF x) as [s|s| |[] m e]; simpl in *; try reflexivity.
  - subst s. reflexivity.
  - destruct H as [H|[-> H]].
    + destruct (Z.compare_spec e (-52)); try reflexivity; lia.
    + simpl. destruct (Pos.compare_spec m 4503599627370496); try reflexivity. lia.
Qed.

Lemma fexp_small v : (v <= 0)%Z -> (-1074 <= fexp prec emax v <= -53)%Z /\ (v - 53 <= fexp prec emax v)%Z.
Proof. unfold fexp, emin, prec, emax. lia. Qed.

Lemma shr_fexp_cases m e l :
  (0 <= m)%Z ->
  let n := (fexp prec emax (Zdigits2 m + e) - e)%Z in
  exists mrs,
    shr_fexp prec emax m e l = (mrs, Z.max e (fexp prec emax (Zdigits2 m + e)))
    /\ shr_m mrs = (m / 2 ^ Z.max 0 n)%Z.
Proof.
  intros Hm n. unfold shr_fexp, shr. fold n.
  assert (shr_m (shr_record_of_loc m l) = m) as Hrec
    by (destruct l as [|[]]; reflexivity).
  destruct n as [|p|p] eqn:En.
  - eexists. split; [f_equal; lia|].
    rewrite Hrec. change (Z.max 0 0) with 0%Z. rewrite Z.pow_0_r, Z.div_1_r. reflexivity.
  - eexists. split; [f_equal; lia|].
    rewrite iter_shr_1_m by lia. rewrite Hrec.
    replace (Z.max 0 (Z.pos p)) with (Z.pos p) by lia. reflexivity.
  - eexists. split; [f_equal; lia|].
    rewrite Hrec. replace (Z.max 0 (Z.neg p)) with 0%Z by lia.
    rewrite Z.pow_0_r, Z.div_1_r. reflexivity.
Qed.


Lemma pow_le_two53 a : (0 <= a <= 53)%Z -> (2 ^ a <= two53)%Z.
Proof.
  intros H. change two53 with (2 ^ 53)%Z. apply Z.pow_le_mono_r; lia.
Qed.

(** The first shift of [binary_round_aux] leaves a mantissa of at most 53
    bits at the exponent [fexp]. *)
Lemma first_shift_small mx ex lx :
  (ex <= fexp prec emax (Z.pos (digits2_pos mx) + ex))%Z ->
  exists mrs,
    shr_fexp prec emax (Z.pos mx) ex lx
    = (mrs, fexp prec emax (Z.pos (digits2_pos mx) + ex))
    /\ (0 <= shr_m mrs < two53)%Z.
Proof.
  intros Hex.
  destruct (shr_fexp_cases (Z.pos mx) ex lx ltac:(lia)) as (mrs & E & Hm).
  simpl Zdigits2 in *.
  set (fe := fexp prec emax (Z.pos (digits2_pos mx) + ex)) in *.
  exists mrs. split; [rewrite E; f_equal; lia|].
  rewrite Hm.
  assert (0 < 2 ^ Z.max 0 (fe - ex))%Z by (apply Z.pow_pos_nonneg; lia).
  split; [apply Z.div_pos; lia|].
  apply Z.div_lt_upper_bound; [assumption|].
  pose proof (digits2_pos_bounds mx) as [_ Hup].
  eapply Z.lt_le_trans; [exact Hup|].
  assert (Z.pos (digits2_pos mx) + ex - 53 <= fe)%Z
    by (unfold fe, fexp, emin, prec, emax; lia).
  replace (Z.pos (digits2_pos mx)) with
    (Z.max 0 (fe - ex) + (Z.pos (digits2_pos mx) - Z.max 0 (fe - ex)))%Z at 1 by lia.
  destruct (Z.le_gt_cases 0 (Z.pos (digits2_pos mx) - Z.max 0 (fe - ex))) as [Hk|Hk].
  - rewrite Z.pow_add_r by lia.
    apply Z.mul_le_mono_nonneg_l; [lia|]. apply pow_le_two53. lia.
  - replace (Z.max 0 (fe - ex) + (Z.pos (digits2_pos mx) - Z.max 0 (fe - ex)))%Z
      with (Z.pos (digits2_pos mx)) by lia.
    assert (2 ^ Z.pos (digits2_pos mx) <= 2 ^ Z.max 0 (fe - ex))%Z
      by (apply Z.pow_le_mono_r; lia).
    assert (1 <= two53)%Z by (unfold two53; lia).
    nia.
Qed.

(** The second shift: a mantissa of at most 53 bits stays; [2^53] loses one
    bit and the exponent grows by one. *)
Lemma second_shift_small m fe :
  (0 <= m <= two53)%Z -> (-1074 <= fe <= -53)%Z ->
  at_most_one
    (let '(mrs, e) := shr_fexp prec emax m fe loc_Exact in
     match shr_m mrs with
     | Z0 => S754_zero false
     | Zpos p => if (e <=? emax - prec)%Z then S754_finite false p e
                 else S754_infinity false
     | Zneg _ => S754_nan
     end).
Proof.
  intros Hm Hfe.
  destruct (shr_fexp_cases m fe loc_Exact ltac:(lia)) as (mrs & E & Hs).
  rewrite E. clear E.
  destruct m as [|q|q]; try lia.
  - rewrite Hs. rewrite Z.div_0_l by (apply Z.pow_nonzero; lia). exact I.
  - simpl Zdigits2 in *.
    set (d := Z.pos (digits2_pos q)) in *.
    set (f2 := fexp prec emax (d + fe)) in *.
    pose proof (digits2_pos_bounds q) as [Hlo Hup]. fold d in Hlo, Hup.
    destruct (Z.eq_dec (Z.pos q) two53) as [Hq|Hq].
    + (* carry *)
      assert (d = 54)%Z as Hd.
      { assert (d <= 54)%Z.
        { apply digits2_pos_le; [lia|]. rewrite Hq. reflexivity. }
        assert (53 < d)%Z.
        { destruct (Z.le_gt_cases d 53) as [Hle|]; [|lia].
          assert (2 ^ d <= two53)%Z by (apply pow_le_two53; unfold d; lia). lia. }
        lia. }
      assert (f2 = fe + 1)%Z as Hf2
        by (unfold f2, fexp, emin, prec, emax; lia).
      rewrite Hf2 in *.
      replace (Z.max fe (fe + 1)) with (fe + 1)%Z by lia.
      replace (Z.max 0 (fe + 1 - fe)) with 1%Z in Hs by lia.
      rewrite Hq in Hs. change (two53 / 2 ^ 1)%Z with 4503599627370496%Z in Hs.
      rewrite Hs.
      destruct (Z.leb_spec (fe + 1) (emax - prec)) as [|Hbad];
        [|unfold emax, prec in Hbad; lia].
      cbn [at_most_one]. lia.
    + assert (d <= 53)%Z as Hd.
      { apply digits2_pos_le; [lia|]. change (2 ^ 53)%Z with two53. lia. }
      assert (f2 <= fe)%Z as Hf2
        by (unfold f2, fexp, emin, prec, emax; lia).
      replace (Z.max fe f2) with fe by lia.
      replace (Z.max 0 (f2 - fe)) with 0%Z in Hs by lia.
      rewrite Z.pow_0_r, Z.div_1_r in Hs. rewrite Hs.
      destruct (Z.leb_spec fe (emax - prec)) as [|Hbad];
        [|unfold emax, prec in Hbad; lia].
      cbn [at_most_one]. lia.
Qed.

Lemma binary_round_aux_small mx ex lx :
  (Z.pos (digits2_pos mx) + ex <= 0)%Z ->
  (ex <= fexp prec emax (Z.pos (digits2_pos mx) + ex))%Z ->
  at_most_one (binary_round_aux prec emax false (Z.pos mx) ex lx).
Proof.
  intros Hv Hex.
  destruct (fexp_small _ Hv) as [[Hfe1 Hfe2] Hfe3].
  unfold binary_round_aux.
  destruct (first_shift_small mx ex lx Hex) as (mrs & E & Hm).
  rewrite E.
  apply second_shift_small; [|lia].
  unfold round_nearest_even.
  destruct (loc_of_shr_record mrs) as [|[]]; try destruct (Z.even _); lia.
Qed.

Lemma iter_xO_spec m d :
  Z.pos (Pos.iter xO m d) = (Z.pos m * 2 ^ Z.pos d)%Z
  /\ Z.pos (digits2_pos (Pos.iter xO m d)) = (Z.pos (digits2_pos m) + Z.pos d)%Z.
Proof.
  induction d as [|d IH] using Pos.peano_ind.
  - simpl. split; lia.
  - rewrite Pos.iter_succ. destruct IH as [IH1 IH2].
    rewrite Pos2Z.inj_xO, IH1. simpl digits2_pos.
    rewrite !Pos2Z.inj_succ, IH2, Z.pow_succ_r by lia. split; lia.
Qed.

Lemma binary_round_small mx ex :
  (Z.pos (digits2_pos mx) + ex <= 0)%Z ->
  at_most_one (binary_round prec emax false mx ex).
Proof.
  intros Hv. unfold binary_round, shl_align.
  set (fe := fexp prec emax (Z.pos (digits2_pos mx) + ex)).
  destruct (fe - ex)%Z as [|d|d] eqn:E.
  - apply binary_round_aux_small; [assumption|fold fe; lia].
  - apply binary_round_aux_small; [assumption|fold fe; lia].
  - destruct (iter_xO_spec mx d) as [_ Hd].
    assert (Z.pos (digits2_pos (Pos.iter xO mx d)) + fe
            = Z.pos (digits2_pos mx) + ex)%Z as Hv' by lia.
    apply binary_round_aux_small; rewrite Hv'; [assumption|fold fe; lia].
Qed.


Lemma binary_round_aux_signed s mx ex lx :
  (0 <= mx)%Z -> signed s (binary_round_aux prec emax s mx ex lx).
Proof.
  intros H. unfold binary_round_aux.
  pose proof (shr_fexp_nonneg mx ex lx H) as H1.
  destruct (shr_fexp prec emax mx ex lx) as [mrs' e']. simpl in H1.
  assert (0 <= round_nearest_even (shr_m mrs') (loc_of_shr_record mrs'))%Z as H2.
  { unfold round_nearest_even. destruct (loc_of_shr_record mrs') as [|[]];
      try destruct (Z.even _); lia. }
  pose proof (shr_fexp_nonneg _ e' loc_Exact H2) as H3.
  destruct (shr_fexp prec emax _ e' loc_Exact) as [mrs'' e'']. simpl in H3.
  destruct (shr_m mrs''); try lia; try reflexivity.
  destruct (_ <=? _)%Z; reflexivity.
Qed.

Lemma binary_round_signed s mx ex : signed s (binary_round prec emax s mx ex).
Proof.
  unfold binary_round. destruct (shl_align _ _ _).
  apply binary_round_aux_signed. lia.
Qed.

Lemma signed_true_at_most_one f : signed true f -> at_most_one f.
Proof. destruct f as [s|s| |[] m e]; simpl; intros H; try congruence; auto. Qed.


Lemma sub_one_small y :
  nonneg y ->
  at_most_one (SFsub prec emax (S754_finite false 4503599627370496 (-52)) y).
Proof.
  destruct y as [s|s| |s my ey]; simpl nonneg; intros H; try contradiction.
  - simpl. right. split; [reflexivity|lia].
  - subst s. simpl. reflexivity.
  - subst s. unfold SFsub. cbn [cond_Zopp].
    set (ez := Z.min (-52) ey).
    assert (Z.pos (fst (shl_align 4503599627370496 (-52) ez)) = 2 ^ (- ez))%Z as HM1.
    { unfold shl_align. destruct (ez - -52)%Z as [|d|d] eqn:E; try lia.
      - cbn [fst]. replace (- ez)%Z with 52%Z by lia. reflexivity.
      - cbn [fst]. destruct (iter_xO_spec 4503599627370496 d) as [-> _].
        change (Z.pos 4503599627370496) with (2 ^ 52)%Z.
        rewrite <- Z.pow_add_r by lia. f_equal. lia. }
    rewrite HM1.
    set (My := Z.pos (fst (shl_align my ey ez))).
    destruct (2 ^ (- ez) - My)%Z as [|dd|dd] eqn:ED.
    + exact I.
    + simpl binary_normalize. apply binary_round_small.
      assert (Z.pos (digits2_pos dd) <= - ez)%Z; [|lia].
      apply digits2_pos_le; [lia|]. unfold My in ED. lia.
    + simpl binary_normalize. apply signed_true_at_most_one, binary_round_signed.
Qed.

Lemma signed_false_nonneg f : signed false f -> nonneg f.
Proof. destruct f; simpl; auto. Qed.

Lemma div_core_nonneg m1 e1 m2 e2 :
  (0 <= fst (fst (SFdiv_core_binary prec emax (Z.pos m1) e1 (Z.pos m2) e2)))%Z.
Proof.
  unfold SFdiv_core_binary.
  set (s := (_ - _ - _)%Z).
  set (m' := match s with Z.pos _ => Z.shiftl (Z.pos m1) s | 0%Z => Z.pos m1 | Z.neg _ => 0%Z end).
  assert (0 <= m')%Z as Hm'.
  { unfold m'. destruct s; try lia. apply Z.shiftl_nonneg. lia. }
  pose proof (Z.div_pos m' (Z.pos m2) Hm' ltac:(lia)) as Hq.
  unfold Z.div in Hq. destruct (Z.div_eucl m' (Z.pos m2)) as [q r]. exact Hq.
Qed.

Lemma div_nonneg x my ey :
  nonneg x -> nonneg (SFdiv prec emax x (S754_finite false my ey)).
Proof.
  destruct x as [s|s| |s mx ex]; simpl nonneg; intros H; try contradiction.
  - exact I.
  - subst s. reflexivity.
  - subst s. unfold SFdiv.
    pose proof (div_core_nonneg mx ex my ey) as Hq.
    destruct (SFdiv_core_binary prec emax (Z.pos mx) ex (Z.pos my) ey) as [[mz ez] lz].
    apply signed_false_nonneg, binary_round_aux_signed. exact Hq.
Qed.

Lemma abs_nonneg_or_nan x : Prim2SF (abs x) = S754_nan \/ nonneg (Prim2SF (abs x)).
Proof.
  rewrite abs_spec. destruct (Prim2SF x); simpl; auto.
Qed.

Lemma min_loop_in l : forall cur, Py.min_loop cur l = cur \/ In (Py.min_loop cur l) l.
Proof.
  induction l as [|x l IH]; intros cur; simpl; [auto|].
  destruct (IH (if (x <? cur)%float then x else cur)) as [E|E]; [|auto].
  rewrite E. destruct (x <? cur)%float; auto.
Qed.

(** ** The strength formula *)

Import SiriusAudioLab.
Open Scope float_scope.

Lemma one_minus_over_50 m :
  Prim2SF m = S754_nan \/ nonneg (Prim2SF m) ->
  Prim2SF (1 - m / 50) = S754_nan \/ at_most_one (Prim2SF (1 - m / 50)).
Proof.
  intros H. rewrite sub_spec, div_spec. unfold SF64sub, SF64div.
  change (Prim2SF 1) with (S754_finite false 4503599627370496 (-52)).
  change (Prim2SF 50) with (S754_finite false 7036874417766400 (-47)).
  destruct H as [->|H].
  - left. reflexivity.
  - right. apply sub_one_small, div_nonneg, H.
Qed.

(** The strength is computed without an exception and lies between 0 and 1,
    whatever the frequency. *)
Lemma portal_strength_bounds (freq : float) :
  exists s, calculate_portal_strength freq = Py.Ok s
            /\ (0 <=? s) = true /\ (s <=? 1) = true.
Proof.
  unfold calculate_portal_strength.
  destruct (freq =? 0); [exists 0; repeat split; reflexivity|].
  unfold portal_diffs, portal_freqs. cbn [map Py.min Py.bind].
  eexists. split; [reflexivity|].
  match goal with |- context [Py.min_loop ?c ?l] => set (m := Py.min_loop c l) end.
  assert (Prim2SF m = S754_nan \/ nonneg (Prim2SF m)) as Hm.
  { unfold m.
    match goal with |- context [Py.min_loop ?c ?l] =>
      destruct (min_loop_in l c) as [->|Hin] end.
    - apply abs_nonneg_or_nan.
    - cbn [In] in Hin.
      repeat (destruct Hin as [<-|Hin]; [apply abs_nonneg_or_nan|]).
      destruct Hin. }
  destruct (one_minus_over_50 m Hm) as [Hn|Hle].
  - assert ((0 <? 1 - m / 50) = false) as E.
    { destruct (0 <? 1 - m / 50) eqn:E; [|reflexivity].
      apply ltb_notnan in E. destruct E as [_ E].
      apply notnan_Prim2SF in E. congruence. }
    unfold Py.max2. rewrite E. split; reflexivity.
  - apply at_most_one_leb in Hle. unfold Py.max2.
    destruct (0 <? 1 - m / 50) eqn:E.
    + split; [apply ltb_leb; assumption|assumption].
    + split; reflexivity.
Qed.

End RoundingFacts.

(* ================================================================== *)
(** * Further properties of the pitch pipeline and of the callback *)

Module MoreProperties.

Import FloatOrder FloatFacts SiriusAudioLab Properties.
Import Rounding Invariants Cube RoundingFacts.
Open Scope float_scope.

(** ** The portal strength *)

Lemma is_nan_eq x : is_nan x = true -> x = nan.
Proof.
  intros H. apply is_nan_Prim2SF in H.
  rewrite <- (SF2Prim_Prim2SF x), H. reflexivity.
Qed.

Lemma is_infinity_cases x : is_infinity x = true -> x = infinity \/ x = neg_infinity.
Proof.
  unfold is_infinity. rewrite eqb_spec, abs_spec. intros H.
  rewrite <- (SF2Prim_Prim2SF x).
  destruct (Prim2SF x) as [s|s| |s m e]; try discriminate.
  destruct s; [right|left]; reflexivity.
Qed.

(** X1: [calculate_portal_strength] never raises and its result lies
    between 0 and 1 for every binary64 frequency, the infinities and NaN
    included; for an infinite frequency and for NaN the result is 0. *)
Theorem portal_strength_range (freq : float) :
  exists s,
    calculate_portal_strength freq = Py.Ok s
    /\ (0 <=? s) = true /\ (s <=? 1) = true
    /\ (is_nan freq = true \/ is_infinity freq = true -> s = 0).
Proof.
  destruct (portal_strength_bounds freq) as (s & Hs & H0 & H1).
  exists s. split; [assumption|]. split; [assumption|]. split; [assumption|].
  intros H.
  assert (calculate_portal_strength freq = Py.Ok 0) as E.
  { destruct H as [H|H].
    - apply is_nan_eq in H. subst freq. vm_compute. reflexivity.
    - apply is_infinity_cases in H. destruct H as [-> | ->]; vm_compute; reflexivity. }
  rewrite E in Hs.
  apply (f_equal (value_or s)) in Hs. symmetry. exact Hs.
Qed.

(** ** The amplitude gate *)






(** ** The dominant bin *)

Lemma analyze_loud_bin np (Hs : Np.shapes np) chunk peak m :
  chunk <> [] ->
  Np.max (Np.abs chunk) = Py.Ok peak ->
  (peak <? 0.01) = false ->
  min_freq_idx (bin_freqs (length chunk)) = Py.Ok m ->
  (0 <= m < Z.of_nat (length (bin_freqs (length chunk))))%Z ->
  exists mags f,
    magnitudes np chunk = Py.Ok mags
    /\ length mags = length (bin_freqs (length chunk))
    /\ nth_error (bin_freqs (length chunk))
                 (Z.to_nat m + Np.argmax (skipn (Z.to_nat m) mags)) = Some f
    /\ analyze_frequency np chunk = Py.Ok f.
Proof.
  intros Hne Hpeak Hgate Hm Hm0.
  destruct (analyze_frequency_loud np Hs chunk peak Hne Hpeak Hgate)
    as (mags & Hmags & Hlen & ->).
  rewrite Hm. simpl Py.bind. unfold Py.slice_from.
  replace (m <? 0)%Z with false by (symmetry; apply Z.ltb_ge; lia).
  assert (skipn (Z.to_nat m) mags <> []) as Hsk.
  { intros E. apply (f_equal (@length float)) in E.
    rewrite length_skipn in E. simpl in E. lia. }
  destruct (Nat.ltb_spec 0 (length (skipn (Z.to_nat m) mags))) as [_|Hz].
  2:{ destruct (skipn (Z.to_nat m) mags); [congruence|simpl in Hz; lia]. }
  pose proof (argmax_lt _ Hsk) as Ha. rewrite length_skipn in Ha.
  set (a := Np.argmax (skipn (Z.to_nat m) mags)) in *.
  rewrite index_nonneg by lia.
  replace (Z.to_nat (Z.of_nat a + m)) with (Z.to_nat m + a)%nat by lia.
  destruct (nth_error (bin_freqs (length chunk)) (Z.to_nat m + a)) as [f|] eqn:E.
  - exists mags, f. auto.
  - apply nth_error_None in E. lia.
Qed.



(** X3: for a block that passes the amplitude gate and whose magnitudes
    hold no NaN, [analyze_frequency] returns the frequency of the bin
    [m + i], where [m] is the first bin kept and [i] is the first position
    of the greatest magnitude among the bins from [m] on: among equal
    peaks the lowest frequency wins. *)
Theorem dominant_bin_is_first_maximum (np : Np.api) (Hs : Np.shapes np)
    (chunk : list float) (peak : float) (mags : list float) (m : Z) :
  Np.max (Np.abs chunk) = Py.Ok peak ->
  (peak <? 0.01) = false ->
  magnitudes np chunk = Py.Ok mags ->
  Forall notnan mags ->
  min_freq_idx (bin_freqs (length chunk)) = Py.Ok m ->
  (0 <= m < Z.of_nat (length mags))%Z ->
  exists (i : nat) (mag f : float),
    first_max (skipn (Z.to_nat m) mags) i mag
    /\ nth_error (bin_freqs (length chunk)) (Z.to_nat m + i) = Some f
    /\ analyze_frequency np chunk = Py.Ok f.
Proof.
  intros Hpeak Hgate Hmags Hnn Hm Hm0.
  assert (chunk <> []) as Hne by (intros E; rewrite E in Hpeak; discriminate).
  destruct (analyze_frequency_loud np Hs chunk peak Hne Hpeak Hgate)
    as (mags0 & Hmags0 & Hlen0 & _).
  assert (mags0 = mags) as -> by congruence.
  destruct (analyze_loud_bin np Hs chunk peak m Hne Hpeak Hgate Hm ltac:(lia))
    as (mags' & f & Hmags' & Hlen & Hnth & Hf).
  assert (mags' = mags) as -> by congruence.
  assert (skipn (Z.to_nat m) mags <> []) as Hsk.
  { intros E. apply (f_equal (@length float)) in E.
    rewrite length_skipn in E. simpl in E. lia. }
  assert (Forall notnan (skipn (Z.to_nat m) mags)) as Hnn'.
  { apply Forall_forall. intros x Hx. rewrite Forall_forall in Hnn.
    apply Hnn. rewrite <- (firstn_skipn (Z.to_nat m) mags).
    apply in_or_app. right. assumption. }
  destruct (argmax_first_max _ Hsk Hnn') as [mag Hfirst].
  exists (Np.argmax (skipn (Z.to_nat m) mags)), mag, f. auto.
Qed.

Lemma forallb_notnan l :
  forallb (fun x => negb (is_nan x)) l = true -> Forall notnan l.
Proof.
  intros H. apply Forall_forall. intros x Hx.
  rewrite forallb_forall in H. specialize (H x Hx).
  unfold notnan. destruct (is_nan x); [discriminate|reflexivity].
Qed.

Lemma dominant_bin_is_first_maximum_witness :
  exists (i : nat) (mag f : float),
    first_max (skipn (Z.to_nat 0)
                     (value_or [] (magnitudes NpRef.ref (sine_block 64 1 0.5))))
              i mag
    /\ nth_error (bin_freqs (length (sine_block 64 1 0.5))) (Z.to_nat 0 + i) = Some f
    /\ analyze_frequency NpRef.ref (sine_block 64 1 0.5) = Py.Ok f.
Proof.
  apply (dominant_bin_is_first_maximum NpRef.ref ref_shapes (sine_block 64 1 0.5)
           (value_or 0 (Np.max (Np.abs (sine_block 64 1 0.5))))).
  - vm_compute. reflexivity.
  - vm_compute. reflexivity.
  - vm_compute. reflexivity.
  - apply forallb_notnan. vm_compute. reflexivity.
  - vm_compute. reflexivity.
  - vm_compute. split; [discriminate|reflexivity].
Defined.

(** ** The first bin kept *)

Lemma min_freq_idx_length freqs freqs' :
  length freqs = length freqs' -> min_freq_idx freqs = min_freq_idx freqs'.
Proof. intros H. unfold min_freq_idx. rewrite H. reflexivity. Qed.

Lemma cutoff_ok_upto_4096 : forallb cutoff_ok (seq 1 4096) = true.
Proof. vm_compute. reflexivity. Qed.

(** X4: for a block of [n] samples, [1 <= n <= 4096], the first bin kept,
    [int(50 * len(freqs) / (sample_rate / 2))], is [(n // 2 + 1) // 441];
    so a block of fewer than 880 samples keeps bin 0, the constant
    component, among the candidates. *)
Theorem cutoff_index_formula (n : nat) :
  (1 <= n <= 4096)%nat ->
  min_freq_idx (bin_freqs n) = Py.Ok (Z.of_nat (n / 2 + 1) / 441)%Z
  /\ ((n < 880)%nat -> min_freq_idx (bin_freqs n) = Py.Ok 0%Z).
Proof.
  intros Hn. pose proof cutoff_ok_upto_4096 as H.
  rewrite forallb_forall in H. specialize (H n ltac:(apply in_seq; lia)).
  unfold cutoff_ok in H.
  rewrite (min_freq_idx_length (bin_freqs n) (repeat 0 (n / 2 + 1)))
    by (rewrite bin_freqs_length, repeat_length; reflexivity).
  destruct (min_freq_idx (repeat 0 (n / 2 + 1))) as [m|]; [|discriminate].
  apply Z.eqb_eq in H. subst m. split; [reflexivity|].
  intros Hlt. f_equal. apply Z.div_small.
  assert (n / 2 < 440)%nat by (apply Nat.Div0.div_lt_upper_bound; lia). lia.
Qed.

Lemma cutoff_index_formula_witness :
  (1 <= 1024 <= 4096)%nat
  /\ min_freq_idx (bin_freqs 1024) = Py.Ok (Z.of_nat (1024 / 2 + 1) / 441)%Z
  /\ ((1024 < 880)%nat -> min_freq_idx (bin_freqs 1024) = Py.Ok 0%Z).
Proof.
  split; [lia|]. apply (cutoff_index_formula 1024). lia.
Defined.

(** ** The note of a frequency *)

Lemma is_infinity_Prim2SF x s : Prim2SF x = S754_infinity s -> is_infinity x = true.
Proof.
  intros E. unfold is_infinity. rewrite eqb_spec, abs_spec, E. reflexivity.
Qed.

(** X5: the outcomes of [freq_to_note].  Below 50 Hz (and only there) the
    note is "Silence"; otherwise the note is the name at position
    [round(n) % 12] of the twelve names, which always exists, followed by
    the octave [round(n) // 12 - 1], and the call raises only
    when the MIDI number [n] is NaN ([ValueError]) or infinite
    ([OverflowError]): the index into the note names is never out of
    range. *)
Theorem freq_to_note_outcomes (np : Np.api) (freq : float) :
  match freq_to_note np freq with
  | Py.Ok s =>
      ((freq <? 50) = true /\ s = "Silence"%string)
      \/ ((freq <? 50) = false
          /\ exists (n : Z) (name : string),
               Py.round_int (midi_number np freq) = Py.Ok n
               /\ nth_error note_names (Z.to_nat (n mod 12)) = Some name
               /\ s = (name ++ Py.str_of_int (n / 12 - 1))%string)
  | Py.Raise e =>
      (freq <? 50) = false
      /\ ((e = Py.ValueError /\ is_nan (midi_number np freq) = true)
          \/ (e = Py.OverflowError /\ is_infinity (midi_number np freq) = true))
  end.
Proof.
  unfold freq_to_note. destruct (freq <? 50) eqn:E; [left; auto|].
  unfold Py.round_int.
  destruct (Prim2SF (midi_number np freq)) as [s|s| |s m e] eqn:Em; simpl Py.bind.
  - (* zero *)
    right. split; [reflexivity|]. exists 0%Z, "C"%string.
    split; [reflexivity|]. split; reflexivity.
  - split; [reflexivity|]. right. split; [reflexivity|].
    eapply is_infinity_Prim2SF; eassumption.
  - split; [reflexivity|]. left. split; [reflexivity|].
    apply is_nan_Prim2SF. assumption.
  - set (n := cond_Zopp s (Py.round_pos m e)).
    pose proof (Z.mod_pos_bound n 12 ltac:(lia)) as Hmod.
    rewrite index_nonneg by lia.
    destruct (nth_error note_names (Z.to_nat (n mod 12))) as [name|] eqn:En.
    + right. split; [reflexivity|]. exists n, name.
      split; [reflexivity|]. split; [assumption|reflexivity].
    + apply nth_error_None in En. simpl in En. lia.
Qed.

(** ** The callback over a stream of blocks *)

Lemma audio_callback_recording np self b self' e :
  audio_callback np self b = (self', e) ->
  recording self' = recording self
  /\ match e with
     | None => audio_data self' = if recording self then audio_data self ++ b
                                  else audio_data self
     | Some _ => audio_data self' = audio_data self
     end.
Proof.
  unfold audio_callback.
  destruct (analyze_frequency np b) as [f|x].
  - destruct (freq_to_note np f) as [note|x].
    + destruct (calculate_portal_strength f) as [st|x];
        intros H; inversion H; subst; simpl; auto.
    + intros H; inversion H; subst; simpl; auto.
  - intros H; inversion H; subst; simpl; auto.
Qed.



(** One cycle of a sine wave in a block of the configured size. *)
Lemma stream_sine_1024 :
  stream NpRef.ref init [sine_block 1024 1 0.5]
  = ({| current_freq := 43.06640625; current_note := "Silence";
        portal_strength := 0; freq_history := [43.06640625];
        recording := false; audio_data := [] |}, None).
Proof.
  cbn [stream]. unfold audio_callback.
  rewrite (analyze_peak_at_bin_1 NpRef.ref ref_shapes _ sine_1024_length sine_1024_peak).
  vm_compute. reflexivity.
Qed.

(** After a block is processed without an exception, the fields describe
    that block. *)
Lemma audio_callback_consistent np self b self' :
  audio_callback np self b = (self', None) ->
  analyze_frequency np b = Py.Ok (current_freq self')
  /\ freq_to_note np (current_freq self') = Py.Ok (current_note self')
  /\ calculate_portal_strength (current_freq self') = Py.Ok (portal_strength self')
  /\ freq_history self'
     = Py.deque_append maxlen (freq_history self) (current_freq self').
Proof.
  unfold audio_callback.
  destruct (analyze_frequency np b) as [f|x]; [|discriminate].
  destruct (freq_to_note np f) as [note|x] eqn:En; [|discriminate].
  destruct (calculate_portal_strength f) as [st|x] eqn:Es; [|discriminate].
  intros H. inversion H; subst; simpl. auto.
Qed.

(** X7: after a stream of at least one block that no exception ended, the
    stored fields agree with one another: the frequency is the analysis of
    the last block, the note and the strength are those of that frequency,
    and the newest item of the history is that frequency. *)
Theorem stream_state_is_last_block (np : Np.api) (blocks : list (list float)) :
  forall (self self' : state),
    blocks <> [] ->
    stream np self blocks = (self', None) ->
    analyze_frequency np (last blocks []) = Py.Ok (current_freq self')
    /\ freq_to_note np (current_freq self') = Py.Ok (current_note self')
    /\ calculate_portal_strength (current_freq self') = Py.Ok (portal_strength self')
    /\ last (freq_history self') 0 = current_freq self'.
Proof.
  induction blocks as [|b blocks IH]; intros self self' Hne H; [congruence|].
  simpl in H.
  destruct (audio_callback np self b) as [self1 [x|]] eqn:E; [discriminate|].
  destruct blocks as [|b' blocks].
  - simpl in H. inversion H; subst.
    destruct (audio_callback_consistent _ _ _ _ E) as (Ha & Hn & Hs & Hh).
    repeat split; try assumption.
    rewrite Hh, deque_append_skipn.
    set (k := (S (length (freq_history self)) - maxlen)%nat).
    assert (k <= length (freq_history self))%nat by (unfold k, maxlen; lia).
    rewrite skipn_app. replace (k - length (freq_history self))%nat with 0%nat by lia.
    simpl skipn at 2. apply last_last.
  - apply (IH self1 self'); [discriminate|assumption].
Qed.

Lemma stream_state_is_last_block_witness :
  [sine_block 1024 1 0.5] <> []
  /\ analyze_frequency NpRef.ref (last [sine_block 1024 1 0.5] []) = Py.Ok 43.06640625
  /\ freq_to_note NpRef.ref 43.06640625 = Py.Ok "Silence"%string
  /\ calculate_portal_strength 43.06640625 = Py.Ok 0
  /\ last [43.06640625] 0 = 43.06640625.
Proof.
  split; [discriminate|].
  exact (stream_state_is_last_block NpRef.ref [sine_block 1024 1 0.5] init _
           ltac:(discriminate) stream_sine_1024).
Defined.

(** ** The ranges of the stored values *)

Lemma Forall_skipn {A : Type} (P : A -> Prop) n (l : list A) :
  Forall P l -> Forall P (skipn n l).
Proof.
  intros H. rewrite <- (firstn_skipn n l) in H. apply Forall_app in H. tauto.
Qed.

Lemma deque_append_keeps {A : Type} (P : A -> Prop) (M : nat) (h : list A) (x : A) :
  (0 < M)%nat -> Forall P h -> P x -> (length h <= M)%nat ->
  Forall P (Py.deque_append M h x) /\ (length (Py.deque_append M h x) <= M)%nat.
Proof.
  intros HM Hh Hx Hlen. rewrite deque_append_skipn. split.
  - apply Forall_skipn, Forall_app. auto.
  - rewrite length_skipn, length_app. cbn [length]. lia.
Qed.

Lemma analyze_frequency_in_range np (Hs : Np.shapes np) chunk :
  length chunk = blocksize ->
  exists f, analyze_frequency np chunk = Py.Ok f /\ in_range f.
Proof.
  intros Hlen.
  assert (chunk <> []) as Hne by (intros E; rewrite E in Hlen; discriminate).
  assert (min_freq_idx (bin_freqs (length chunk)) = Py.Ok 1%Z) as Hm
    by (rewrite Hlen; exact min_freq_idx_1024).
  destruct (analyze_frequency_cases np Hs chunk 1%Z Hne Hm ltac:(lia))
    as (f & Hf & Hcases).
  exists f. split; [assumption|].
  destruct Hcases as [->|(k & Hk & Hnth)]; [left; reflexivity|].
  right. rewrite Hlen in Hnth. apply (bins_1024_spec k f); [|assumption].
  change (Z.to_nat 1) with 1%nat in Hk. lia.
Qed.

Lemma audio_callback_keeps_ranges np (Hs : Np.shapes np) self b self' e :
  length b = blocksize ->
  good_state self ->
  audio_callback np self b = (self', e) ->
  good_state self'.
Proof.
  intros Hlen (Hf & Hst & Hh & Hl) H.
  destruct (analyze_frequency_in_range np Hs b Hlen) as (f & Ha & Hr).
  unfold audio_callback in H. rewrite Ha in H.
  destruct (freq_to_note np f) as [note|x].
  - destruct (portal_strength_bounds f) as (s & Hs' & H0 & H1).
    rewrite Hs' in H. inversion H; subst; clear H.
    unfold good_state; cbn [current_freq portal_strength freq_history].
    destruct (deque_append_keeps in_range maxlen (freq_history self) f) as [Hd1 Hd2];
      try assumption; [unfold maxlen; lia|].
    split; [assumption|]. split; [split; assumption|]. split; assumption.
  - inversion H; subst; clear H.
    unfold good_state; cbn [current_freq portal_strength freq_history].
    split; [assumption|]. split; [assumption|]. split; assumption.
Qed.

(** X8: an invariant of the callback on blocks of the configured size,
    whether or not an exception ends the stream: the frequency is 0.0 or
    lies between 43.06640625 Hz and 22050 Hz, the strength lies between 0
    and 1, every item of the history is such a frequency, and the history
    holds at most 100 items. *)
Theorem stream_keeps_ranges (np : Np.api) (Hs : Np.shapes np)
    (blocks : list (list float)) :
  forall (self self' : state) (e : option Py.exn),
    Forall (fun b => length b = blocksize) blocks ->
    good_state self ->
    stream np self blocks = (self', e) ->
    good_state self'.
Proof.
  induction blocks as [|b blocks IH]; intros self self' e Hall Hgood H; simpl in H.
  - inversion H; subst. assumption.
  - inversion Hall as [|? ? Hb Hrest]; subst.
    destruct (audio_callback np self b) as [self1 [x|]] eqn:E.
    + inversion H; subst.
      eapply audio_callback_keeps_ranges; eassumption.
    + apply (IH self1 self' e); try assumption.
      eapply audio_callback_keeps_ranges; eassumption.
Qed.

Lemma good_state_init : good_state init.
Proof.
  unfold good_state, init, in_range, unit_interval; cbn.
  split; [left; reflexivity|]. split; [split; reflexivity|].
  split; [constructor|lia].
Qed.

Lemma stream_keeps_ranges_witness :
  Forall (fun b => length b = blocksize) [sine_block 1024 1 0.5]
  /\ good_state init
  /\ good_state {| current_freq := 43.06640625; current_note := "Silence";
                   portal_strength := 0; freq_history := [43.06640625];
                   recording := false; audio_data := [] |}.
Proof.
  assert (Forall (fun b => length b = blocksize) [sine_block 1024 1 0.5]) as Hall
    by (constructor; [exact sine_1024_length|constructor]).
  split; [exact Hall|]. split; [exact good_state_init|].
  exact (stream_keeps_ranges NpRef.ref ref_shapes _ init _ None
           Hall good_state_init stream_sine_1024).
Defined.

(** ** The colour of the cube *)






End MoreProperties.

(* ================================================================== *)
(** * Properties of the recorder *)

Module RecorderProperties.

Import FloatOrder FloatFacts SiriusAudioLab Properties.
Import Invariants Recorder MoreProperties.
Open Scope float_scope.

(** ** File names determine their number *)

Lemma string_length_append (a s : string) :
  String.length (a ++ s) = (String.length a + String.length s)%nat.
Proof. induction a as [|c a IH]; simpl; [reflexivity|]. rewrite IH. reflexivity. Qed.

Lemma append_cancel_r (s : string) :
  forall a b : string, (a ++ s)%string = (b ++ s)%string -> a = b.
Proof.
  induction a as [|c a IH]; destruct b as [|d b]; simpl; intros H.
  - reflexivity.
  - apply (f_equal String.length) in H. simpl in H.
    rewrite string_length_append in H. lia.
  - apply (f_equal String.length) in H. simpl in H.
    rewrite string_length_append in H. lia.
  - injection H as Hc Hr. f_equal; [assumption|]. apply IH. assumption.
Qed.

Lemma to_int_not_nil (n : Z) :
  Z.to_int n <> Decimal.Pos Decimal.Nil /\ Z.to_int n <> Decimal.Neg Decimal.Nil.
Proof.
  destruct n as [|p|p]; simpl; split; try discriminate;
    intros H; injection H as H; exact (DecimalPos.Unsigned.to_uint_nonnil p H).
Qed.

Lemma str_of_int_inj (a b : Z) : Py.str_of_int a = Py.str_of_int b -> a = b.
Proof.
  unfold Py.str_of_int. intros H.
  apply DecimalZ.to_int_inj.
  destruct (to_int_not_nil a) as [Ha1 Ha2]. destruct (to_int_not_nil b) as [Hb1 Hb2].
  pose proof (NilZero.isi (Z.to_int a) Ha1 Ha2) as Ea.
  pose proof (NilZero.isi (Z.to_int b) Hb1 Hb2) as Eb.
  rewrite H in Ea. rewrite Ea in Eb. injection Eb as Eb. assumption.
Qed.

Lemma wav_name_inj (a b : Z) : wav_name a = wav_name b -> a = b.
Proof.
  unfold wav_name. intros H. simpl in H.
  repeat (injection H as H).
  apply append_cancel_r in H. apply str_of_int_inj. assumption.
Qed.

(** ** One recording, from the press that starts it to the press that ends it *)

Lemma audio_callback_completes np self b :
  snd (audio_callback np self b) = None <-> completes np b = true.
Proof.
  unfold audio_callback, completes.
  destruct (analyze_frequency np b) as [f|x]; simpl; [|split; discriminate].
  destruct (freq_to_note np f) as [note|x]; simpl.
  - destruct (calculate_portal_strength f) as [s|x]; simpl; split; auto; discriminate.
  - split; discriminate.
Qed.

Lemma handle_block np self b :
  let self' := handle np self (Block b) in
  recording (lab self') = recording (lab self)
  /\ file_counter self' = file_counter self
  /\ calls self' = calls self
  /\ audio_data (lab self')
     = if recording (lab self) && completes np b
       then audio_data (lab self) ++ b else audio_data (lab self).
Proof.
  cbn [handle lab file_counter calls].
  destruct (audio_callback np (lab self) b) as [l' e] eqn:E.
  pose proof (audio_callback_completes np (lab self) b) as Hc. rewrite E in Hc.
  destruct (audio_callback_recording _ _ _ _ _ E) as [Hr Hd].
  cbn [fst snd] in *. split; [assumption|]. split; [reflexivity|]. split; [reflexivity|].
  destruct e as [x|].
  - destruct (completes np b); [destruct Hc as [_ Hc]; discriminate (Hc eq_refl)|].
    rewrite andb_false_r. assumption.
  - rewrite (proj1 Hc eq_refl), andb_true_r. assumption.
Qed.

Lemma run_blocks np blocks :
  forall self,
    let self' := run np self (map Block blocks) in
    recording (lab self') = recording (lab self)
    /\ file_counter self' = file_counter self
    /\ calls self' = calls self
    /\ audio_data (lab self')
       = if recording (lab self)
         then audio_data (lab self) ++ concat (filter (completes np) blocks)
         else audio_data (lab self).
Proof.
  induction blocks as [|b blocks IH]; intros self; cbn [map run fold_left].
  - cbn [filter concat]. rewrite app_nil_r.
    repeat split. destruct (recording (lab self)); reflexivity.
  - destruct (handle_block np self b) as (Hr & Hc & Hl & Hd).
    destruct (IH (handle np self (Block b))) as (Hr' & Hc' & Hl' & Hd').
    unfold run in *. split; [congruence|]. split; [congruence|]. split; [congruence|].
    rewrite Hd', Hr, Hd. cbn [filter].
    destruct (recording (lab self)); [|reflexivity].
    cbn [andb]. destruct (completes np b); [|reflexivity].
    cbn [concat]. rewrite <- app_assoc. reflexivity.
Qed.

(** X9: one recording.  From a state that is not recording, a press of
    the button, a run of blocks and a second press lead to at most one
    call to [sf.write]: when at least one sample was stored, the call
    names the file [sirius_audio_<file_counter>.wav], passes the samples
    of the blocks processed to the end, converted to float32, and the
    sample rate 44100, and the counter moves on by one if the call
    returns; when nothing was stored there is no call and the counter
    stays.  The application is not recording afterwards. *)
Theorem session_writes_completed_blocks (np : Np.api) (self : app)
    (blocks : list (list float)) (ok0 ok : bool) :
  recording (lab self) = false ->
  let recorded := concat (filter (completes np) blocks) in
  let self' := run np self (Toggle ok0 :: map Block blocks ++ [Toggle ok]) in
  recording (lab self') = false
  /\ calls self'
     = calls self
       ++ match recorded with
          | [] => []
          | _ :: _ => [({| filename := wav_name (file_counter self);
                           data := map to_float32 recorded;
                           samplerate := 44100 |}, ok)]
          end
  /\ file_counter self'
     = match recorded with
       | [] => file_counter self
       | _ :: _ => if ok then (file_counter self + 1)%Z else file_counter self
       end.
Proof.
  intros Hrec recorded self'. unfold self', run.
  cbn [fold_left]. rewrite fold_left_app. cbn [fold_left].
  set (s1 := handle np self (Toggle ok0)).
  assert (recording (lab s1) = true /\ audio_data (lab s1) = []
          /\ file_counter s1 = file_counter self /\ calls s1 = calls self) as (R1 & D1 & C1 & L1).
  { unfold s1. cbn [handle]. unfold toggle_recording. rewrite Hrec. cbn. auto. }
  destruct (run_blocks np blocks s1) as (R2 & C2 & L2 & D2).
  unfold run in *. set (s2 := fold_left (handle np) (map Block blocks) s1) in *.
  rewrite R1 in R2, D2. rewrite D1 in D2. cbn [List.app] in D2. fold recorded in D2.
  cbn [handle]. unfold toggle_recording. rewrite R2. cbn [negb].
  unfold save_recording. cbn [lab audio_data file_counter calls]. rewrite D2.
  destruct recorded as [|x rest].
  - cbn [fst lab recording calls file_counter].
    split; [reflexivity|]. split; [rewrite app_nil_r; congruence|congruence].
  - destruct ok; cbn [fst lab recording calls file_counter];
      (split; [reflexivity|]); (split; [rewrite L2, L1, C2, C1; reflexivity|congruence]).
Qed.

Lemma session_writes_completed_blocks_witness :
  recording (lab initial) = false
  /\ calls (run NpRef.ref initial
              (Toggle true :: map Block [[0; 0.001]; [0.002]] ++ [Toggle true]))
     = [({| filename := "sirius_audio_1.wav"; data := map to_float32 [0; 0.001; 0.002];
            samplerate := 44100 |}, true)].
Proof.
  split; [reflexivity|].
  pose proof (session_writes_completed_blocks NpRef.ref initial [[0; 0.001]; [0.002]]
                true true eq_refl) as H.
  cbv zeta in H. destruct H as (_ & H & _). rewrite H. vm_compute. reflexivity.
Defined.

(** ** The names of the files *)

Lemma numbered_app c l1 l2 :
  numbered c (l1 ++ l2)
  <-> numbered c l1 /\ numbered (c + Z.of_nat (length (filter snd l1)))%Z l2.
Proof.
  revert c. induction l1 as [|[w ok] l1 IH]; intros c.
  - cbn. rewrite Z.add_0_r. tauto.
  - cbn [List.app numbered filter snd]. rewrite IH.
    destruct ok; cbn [length].
    + replace (c + Z.of_nat (S (length (filter snd l1))))%Z
        with (c + 1 + Z.of_nat (length (filter snd l1)))%Z by lia. tauto.
    + tauto.
Qed.

Lemma handle_log_ok np self ev : log_ok self -> log_ok (handle np self ev).
Proof.
  intros [Hn Hc]. destruct ev as [b|ok].
  - exact (conj Hn Hc).
  - cbn [handle]. unfold toggle_recording.
    destruct (negb (recording (lab self))); [exact (conj Hn Hc)|].
    unfold save_recording. cbn [lab audio_data file_counter calls].
    destruct (audio_data (lab self)) as [|x rest]; [exact (conj Hn Hc)|].
    destruct ok; unfold log_ok; cbn [fst calls file_counter];
      rewrite numbered_app, filter_app, length_app; cbn [filter snd length numbered filename].
    + split; [split; [assumption|]|lia]. split; [rewrite Hc; reflexivity|exact I].
    + split; [split; [assumption|]|lia]. split; [rewrite Hc; reflexivity|exact I].
Qed.

Lemma run_log_ok np events : forall self, log_ok self -> log_ok (run np self events).
Proof.
  induction events as [|ev events IH]; intros self H; [assumption|].
  apply IH, handle_log_ok, H.
Qed.

Lemma log_ok_init : log_ok initial.
Proof. split; [exact I|reflexivity]. Qed.

Lemma numbered_succeeded l :
  forall c, numbered c l ->
  map filename (succeeded l)
  = map (fun i => wav_name (c + Z.of_nat i)) (seq 0 (length (succeeded l))).
Proof.
  unfold succeeded.
  induction l as [|[w ok] l IH]; intros c H; [reflexivity|].
  cbn [numbered] in H. destruct H as [Hw Hrest]. cbn [filter snd].
  destruct ok.
  - cbn [map fst length seq]. rewrite Z.add_0_r. f_equal; [assumption|].
    rewrite (IH _ Hrest), <- seq_shift, map_map.
    apply map_ext. intros i. f_equal. lia.
  - apply IH. assumption.
Qed.

(** X10: whatever the events after start-up, the files written (the calls
    to [sf.write] that returned) are named [sirius_audio_1.wav],
    [sirius_audio_2.wav], ... in this order, and [file_counter] is the
    number of files written plus one. *)
Theorem written_files_are_numbered (np : Np.api) (events : list event) :
  let self' := run np initial events in
  let n := length (succeeded (calls self')) in
  map filename (succeeded (calls self'))
  = map (fun i => wav_name (Z.of_nat i)) (seq 1 n)
  /\ file_counter self' = (Z.of_nat n + 1)%Z.
Proof.
  intros self' n.
  destruct (run_log_ok np events initial log_ok_init) as [Hn Hc]. fold self' in Hn, Hc.
  split.
  - rewrite (numbered_succeeded _ 1%Z Hn). fold n.
    rewrite <- seq_shift, map_map. apply map_ext. intros i. f_equal. lia.
  - rewrite Hc. unfold n, succeeded. rewrite length_map. lia.
Qed.

Lemma numbered_later_names c l :
  numbered c l ->
  Forall (fun e => exists k, (c <= k)%Z /\ filename (fst e) = wav_name k) l.
Proof.
  revert c. induction l as [|[w ok] l IH]; intros c H; [constructor|].
  cbn [numbered] in H. destruct H as [Hw Hrest]. constructor.
  - exists c. split; [lia|assumption].
  - apply IH in Hrest. eapply Forall_impl; [|exact Hrest].
    intros e (k & Hk & He). exists k. split; [destruct ok; lia|assumption].
Qed.

(** X11: within one run of the application no later call to [sf.write],
    returning or not, names a file that an earlier call wrote. *)
Theorem written_file_is_not_overwritten (np : Np.api) (events : list event)
    (l1 l2 : list (write_call * bool)) (c1 : write_call) :
  calls (run np initial events) = l1 ++ (c1, true) :: l2 ->
  Forall (fun e => filename (fst e) <> filename c1) l2.
Proof.
  intros Hsplit.
  destruct (run_log_ok np events initial log_ok_init) as [Hn _].
  rewrite Hsplit in Hn. apply numbered_app in Hn. destruct Hn as [_ Hn].
  cbn [numbered] in Hn. destruct Hn as [Hc1 Hrest].
  apply numbered_later_names in Hrest.
  eapply Forall_impl; [|exact Hrest].
  intros e (k & Hk & He) Heq. rewrite He, Hc1 in Heq.
  apply wav_name_inj in Heq. lia.
Qed.

Lemma written_file_is_not_overwritten_witness :
  calls (run NpRef.ref initial
           [Toggle true; Block [0; 0.001]; Toggle true;
            Toggle true; Block [0.002]; Toggle false])
  = [] ++ ({| filename := "sirius_audio_1.wav"; data := [0; to_float32 0.001];
              samplerate := 44100 |}, true)
          :: [({| filename := "sirius_audio_2.wav"; data := [to_float32 0.002];
                  samplerate := 44100 |}, false)]
  /\ Forall (fun e => filename (fst e) <> "sirius_audio_1.wav"%string)
            [({| filename := "sirius_audio_2.wav"; data := [to_float32 0.002];
                 samplerate := 44100 |}, false)].
Proof.
  assert (calls (run NpRef.ref initial
           [Toggle true; Block [0; 0.001]; Toggle true;
            Toggle true; Block [0.002]; Toggle false])
  = [] ++ ({| filename := "sirius_audio_1.wav"; data := [0; to_float32 0.001];
              samplerate := 44100 |}, true)
          :: [({| filename := "sirius_audio_2.wav"; data := [to_float32 0.002];
                  samplerate := 44100 |}, false)]) as H by (vm_compute; reflexivity).
  split; [exact H|].
  exact (written_file_is_not_overwritten NpRef.ref _ _ _ _ H).
Defined.

End RecorderProperties.
